(** * StoryCraft: the prompt analyzer and the story cleaner

    A shallow embedding of [PromptAnalyzer.analyze_prompt] (storycraft.py)
    and of [clean_story_content] (webapp.py), with the parts of Python's
    [str] and [re] libraries the two functions call.

    Strings are sequences of code points; the model takes the code points
    below 256 (Rocq's [ascii]), on which [str.lower], [str.isspace] and the
    matching of [re] are the tables written out below. *)

From Stdlib Require Import Ascii String List Arith Bool Lia.
From Stdlib Require Import DecimalString.
Import ListNotations.
Open Scope string_scope.
Open Scope nat_scope.

(* ================================================================== *)
(** ** Python's [str] on code points below 256 *)

Module PyStr.

(** [c.isspace()], also the class [\s] of [re] and what [strip()] removes:
    U+0009..U+000D, U+001C..U+0020, U+0085, U+00A0. *)
Definition is_space (c : ascii) : bool :=
  let n := nat_of_ascii c in
  ((9 <=? n) && (n <=? 13)) || ((28 <=? n) && (n <=? 32))
  || (n =? 133) || (n =? 160).

(** [c.lower()]: A..Z and the Latin-1 capitals U+00C0..U+00DE (without
    the multiplication sign U+00D7) move up by 32. *)
Definition lower_char (c : ascii) : ascii :=
  let n := nat_of_ascii c in
  if ((65 <=? n) && (n <=? 90))
     || ((192 <=? n) && (n <=? 222) && negb (n =? 215))
  then ascii_of_nat (n + 32) else c.

(** The simple upper-case mapping, where its value is below 256. *)
Definition upper_char (c : ascii) : ascii :=
  let n := nat_of_ascii c in
  if ((97 <=? n) && (n <=? 122))
     || ((224 <=? n) && (n <=? 254) && negb (n =? 247))
  then ascii_of_nat (n - 32) else c.

(** [s.lower()] *)
Fixpoint lower (s : string) : string :=
  match s with
  | EmptyString => EmptyString
  | String c s' => String (lower_char c) (lower s')
  end.

(** [s.startswith(p)] *)
Fixpoint startswith (p s : string) : bool :=
  match p, s with
  | EmptyString, _ => true
  | String a p', String b s' => Ascii.eqb a b && startswith p' s'
  | String _ _, EmptyString => false
  end.

(** [needle in hay] *)
Fixpoint contains (needle hay : string) : bool :=
  startswith needle hay
  || match hay with
     | EmptyString => false
     | String _ hay' => contains needle hay'
     end.

(** [s.lstrip()], [s.rstrip()], [s.strip()] *)
Fixpoint lstrip (s : string) : string :=
  match s with
  | EmptyString => EmptyString
  | String c s' => if is_space c then lstrip s' else s
  end.

Fixpoint rstrip (s : string) : string :=
  match s with
  | EmptyString => EmptyString
  | String c s' =>
      match rstrip s' with
      | EmptyString => if is_space c then EmptyString else String c EmptyString
      | r => String c r
      end
  end.

Definition strip (s : string) : string := rstrip (lstrip s).

(** [s.split(sep)] for a one-character separator: never an empty list. *)
Fixpoint split (sep : ascii) (s : string) : list string :=
  match s with
  | EmptyString => [EmptyString]
  | String c s' =>
      if Ascii.eqb c sep then EmptyString :: split sep s'
      else match split sep s' with
           | l :: ls => String c l :: ls
           | [] => [String c EmptyString]
           end
  end.

(** [sep.join(parts)] *)
Definition join (sep : string) (parts : list string) : string :=
  String.concat sep parts.

(** [len(s)] *)
Definition len (s : string) : nat := String.length s.

End PyStr.

(* ================================================================== *)
(** ** Python's [re]: a backtracking matcher for the patterns in use *)

Module Re.

(** The flags of [re] the two source files pass. *)
Record flags := Flags { IGNORECASE : bool; MULTILINE : bool; DOTALL : bool }.

(** One-character items: [.], [\s], a literal, a range, and the union a
    bracket class [[...]] makes of them. *)
Inductive cset :=
| CDot
| CSpace
| CChar (c : ascii)
| CRange (lo hi : ascii)
| CUnion (a b : cset).

(** The operators the patterns are built from.  Quantifiers stand on
    one-character items only ([.*?], [\s+], [.+?]) and [?] on a group, as
    in the source; there is one capturing group, number 1. *)
Inductive regex :=
| REmpty
| RLit (l : string)
| RSet (c : cset)
| RStar (greedy : bool) (c : cset)
| RSeq (a b : regex)
| RAlt (a b : regex)
| ROpt (a : regex)
| RGroup (a : regex)
| RBol
| RLookahead (a : regex).

(** [c+] and [c+?]: one item, then the star of the same greed. *)
Definition RPlus (greedy : bool) (c : cset) : regex :=
  RSeq (RSet c) (RStar greedy c).

Fixpoint RCat (rs : list regex) : regex :=
  match rs with
  | [] => REmpty
  | [r] => r
  | r :: rs' => RSeq r (RCat rs')
  end.

Definition between (lo hi c : ascii) : bool :=
  (nat_of_ascii lo <=? nat_of_ascii c) && (nat_of_ascii c <=? nat_of_ascii hi).

(** A literal character against a subject character. *)
Definition chr_eq (fl : flags) (p c : ascii) : bool :=
  if IGNORECASE fl
  then Ascii.eqb (PyStr.lower_char p) (PyStr.lower_char c)
  else Ascii.eqb p c.

Fixpoint in_cset (fl : flags) (cs : cset) (c : ascii) : bool :=
  match cs with
  | CDot => DOTALL fl || negb (Ascii.eqb c "010")
  | CSpace => PyStr.is_space c
  | CChar p => chr_eq fl p c
  | CRange lo hi =>
      if IGNORECASE fl
      then between lo hi (PyStr.lower_char c)
           || between lo hi (PyStr.upper_char (PyStr.lower_char c))
      else between lo hi c
  | CUnion a b => in_cset fl a c || in_cset fl b c
  end.

(** The matcher's cursor: how many characters the attempt has consumed,
    the character before the cursor (none at the start of the subject),
    the text still ahead, and what group 1 holds. *)
Record mstate := MState {
  consumed : nat;
  last : option ascii;
  rest : string;
  group1 : option string
}.

Definition advance (c : ascii) (s' : string) (st : mstate) : mstate :=
  MState (S (consumed st)) (Some c) s' (group1 st).

Definition set_group (g : string) (st : mstate) : mstate :=
  MState (consumed st) (last st) (rest st) (Some g).

(** A literal run of characters, consumed one by one. *)
Fixpoint lit (fl : flags) (l : string) (st : mstate) : option mstate :=
  match l with
  | EmptyString => Some st
  | String p l' =>
      match rest st with
      | EmptyString => None
      | String c s' =>
          if chr_eq fl p c then lit fl l' (advance c s' st) else None
      end
  end.

(** [^]: the start of the subject, and with MULTILINE the position after
    each newline. *)
Definition at_bol (fl : flags) (st : mstate) : bool :=
  match last st with
  | None => true
  | Some c => MULTILINE fl && Ascii.eqb c "010"
  end.

(** [c*] (greedy: longest run first) and [c*?] (lazy: shortest first),
    each alternative handed to the continuation [k] in that order. *)
Fixpoint star (fl : flags) (greedy : bool) (cs : cset)
         (k : mstate -> option mstate)
         (n : nat) (l : option ascii) (g : option string) (s : string)
         {struct s} : option mstate :=
  if greedy then
    match
      match s with
      | EmptyString => None
      | String c s' =>
          if in_cset fl cs c then star fl greedy cs k (S n) (Some c) g s'
          else None
      end
    with
    | Some r => Some r
    | None => k (MState n l s g)
    end
  else
    match k (MState n l s g) with
    | Some r => Some r
    | None =>
        match s with
        | EmptyString => None
        | String c s' =>
            if in_cset fl cs c then star fl greedy cs k (S n) (Some c) g s'
            else None
        end
    end.

(** The backtracking matcher, in continuation-passing style: [rmatch fl r
    st k] is the first way, in the priority order of [re], to match [r] at
    [st] so that [k] accepts what follows. *)
Fixpoint rmatch (fl : flags) (r : regex) (st : mstate)
         (k : mstate -> option mstate) {struct r} : option mstate :=
  match r with
  | REmpty => k st
  | RLit l =>
      match lit fl l st with
      | Some st' => k st'
      | None => None
      end
  | RSet cs =>
      match rest st with
      | EmptyString => None
      | String c s' => if in_cset fl cs c then k (advance c s' st) else None
      end
  | RStar greedy cs =>
      star fl greedy cs k (consumed st) (last st) (group1 st) (rest st)
  | RSeq a b => rmatch fl a st (fun st' => rmatch fl b st' k)
  | RAlt a b =>
      match rmatch fl a st k with
      | Some found => Some found
      | None => rmatch fl b st k
      end
  | ROpt a =>
      match rmatch fl a st k with
      | Some found => Some found
      | None => k st
      end
  | RGroup a =>
      rmatch fl a st
        (fun st' =>
           k (set_group (substring 0 (consumed st' - consumed st) (rest st)) st'))
  | RBol => if at_bol fl st then k st else None
  | RLookahead a =>
      match rmatch fl a st Some with
      | Some _ => k st
      | None => None
      end
  end.

(** A match object: where the match starts, how long it is, group 1. *)
Record match_obj := Match {
  m_start : nat;
  m_len : nat;
  m_group1 : option string
}.

(** An attempt at the cursor [(l, s)], [off] characters into the subject. *)
Definition match_here (fl : flags) (r : regex)
           (off : nat) (l : option ascii) (s : string) : option match_obj :=
  match rmatch fl r (MState 0 l s None) Some with
  | Some st => Some (Match off (consumed st) (group1 st))
  | None => None
  end.

(** [re.search]: the attempt at the leftmost position that has one; the
    position at the end of the subject is tried too. *)
Fixpoint search_from (fl : flags) (r : regex)
         (off : nat) (l : option ascii) (s : string) : option match_obj :=
  match match_here fl r off l s with
  | Some m => Some m
  | None =>
      match s with
      | EmptyString => None
      | String c s' => search_from fl r (S off) (Some c) s'
      end
  end.

Definition search (fl : flags) (r : regex) (s : string) : option match_obj :=
  search_from fl r 0 None s.

(** [re.compile(r, flags).match(s, i)]: the attempt at position [i] of the
    subject, with what stands before [i] still in view of [^]. *)
Fixpoint attempt_from (fl : flags) (r : regex)
         (off : nat) (l : option ascii) (i : nat) (s : string)
  : option match_obj :=
  match i with
  | O => match_here fl r off l s
  | S i' =>
      match s with
      | EmptyString => None
      | String c s' => attempt_from fl r (S off) (Some c) i' s'
      end
  end.

Definition attempt_at (fl : flags) (r : regex) (i : nat) (s : string)
  : option match_obj :=
  attempt_from fl r 0 None i s.

(** At a position, the first attempt in priority order that consumes at
    least one character, as its length. *)
Definition match_nonempty (fl : flags) (r : regex)
           (l : option ascii) (s : string) : option nat :=
  match rmatch fl r (MState 0 l s None)
          (fun st => if consumed st =? 0 then None else Some st) with
  | Some st => Some (consumed st)
  | None => None
  end.

(** [re.sub(r, "", s)]: every match of [r], found from left to right
    without overlap, is deleted.  An empty match deletes nothing, and after
    one [re] looks at the same position for a match that is not empty; so the
    text deleted at a position is the first non-empty attempt there.  [skip]
    counts the characters of the current match still to drop. *)
Fixpoint sub_del (fl : flags) (r : regex)
         (skip : nat) (l : option ascii) (s : string) : string :=
  match s with
  | EmptyString => EmptyString
  | String c s' =>
      match skip with
      | S n => sub_del fl r n (Some c) s'
      | O =>
          match match_nonempty fl r l s with
          | Some (S n) => sub_del fl r n (Some c) s'
          | _ => String c (sub_del fl r 0 (Some c) s')
          end
      end
  end.

Definition sub_empty (fl : flags) (r : regex) (s : string) : string :=
  sub_del fl r 0 None s.

(** Whether the pattern has a group 1 at all. *)
Fixpoint has_group (r : regex) : bool :=
  match r with
  | RGroup _ => true
  | RSeq a b | RAlt a b => has_group a || has_group b
  | ROpt a | RLookahead a => has_group a
  | _ => false
  end.

End Re.

(* ================================================================== *)
(** ** storycraft.py: [StoryConfig] and [PromptAnalyzer] *)

(** What a call can end in: a value, or one of the exceptions
    [match.group(1).strip()] can raise. *)
Inductive exn :=
| IndexError       (* no such group *)
| AttributeError.  (* 'NoneType' object has no attribute 'strip' *)

Inductive res (A : Type) :=
| Ok (a : A)
| Raise (e : exn).
Arguments Ok {A} a.
Arguments Raise {A} e.

Definition bind {A B : Type} (m : res A) (f : A -> res B) : res B :=
  match m with
  | Ok a => f a
  | Raise e => Raise e
  end.

Notation "x <- m ;; f" := (bind m (fun x => f))
  (at level 61, m at next level, right associativity).

(** A [dict] with string keys, in insertion order. *)
Definition dict (V : Type) := list (string * V).

(** [d[k] = v]: an existing key keeps its place. *)
Fixpoint dict_set {V : Type} (k : string) (v : V) (d : dict V) : dict V :=
  match d with
  | [] => [(k, v)]
  | (k', v') :: t =>
      if String.eqb k k' then (k, v) :: t else (k', v') :: dict_set k v t
  end.

(** [d.get(k)] *)
Fixpoint dict_get {V : Type} (k : string) (d : dict V) : option V :=
  match d with
  | [] => None
  | (k', v) :: t => if String.eqb k k' then Some v else dict_get k t
  end.

Definition keys {V : Type} (d : dict V) : list string := map fst d.

(** The dataclass, with its defaults. *)
Record StoryConfig := mkStoryConfig {
  genre : string;
  style : string;
  length : string;
  tone : string;
  protagonist : string;
  setting : string;
  theme : string;
  original_prompt : string
}.

Definition StoryConfig_new : StoryConfig :=
  mkStoryConfig "general" "narrative" "medium" "neutral" "" "" "" "".

(** Attribute assignments [config.f = v]. *)
Definition set_original_prompt (v : string) (c : StoryConfig) : StoryConfig :=
  mkStoryConfig (genre c) (style c) (length c) (tone c)
                (protagonist c) (setting c) (theme c) v.
Definition set_genre (v : string) (c : StoryConfig) : StoryConfig :=
  mkStoryConfig v (style c) (length c) (tone c)
                (protagonist c) (setting c) (theme c) (original_prompt c).
Definition set_length (v : string) (c : StoryConfig) : StoryConfig :=
  mkStoryConfig (genre c) (style c) v (tone c)
                (protagonist c) (setting c) (theme c) (original_prompt c).
Definition set_tone (v : string) (c : StoryConfig) : StoryConfig :=
  mkStoryConfig (genre c) (style c) (length c) v
                (protagonist c) (setting c) (theme c) (original_prompt c).
Definition set_protagonist (v : string) (c : StoryConfig) : StoryConfig :=
  mkStoryConfig (genre c) (style c) (length c) (tone c)
                v (setting c) (theme c) (original_prompt c).
Definition set_setting (v : string) (c : StoryConfig) : StoryConfig :=
  mkStoryConfig (genre c) (style c) (length c) (tone c)
                (protagonist c) v (theme c) (original_prompt c).

(** The attributes [__init__] gives a [PromptAnalyzer]. *)
Record PromptAnalyzer := mkPromptAnalyzer {
  genre_keywords : dict (list string);
  length_keywords : dict (list string);
  tone_keywords : dict (list string);
  character_patterns : list Re.regex;
  setting_patterns : list Re.regex
}.

Import Re.

(** [[\.,\s]] *)
Definition terminator : cset :=
  CUnion (CChar ".") (CUnion (CChar ",") CSpace).

(** [(.+?)] *)
Definition capture_lazy : regex := RGroup (RPlus false CDot).

(** [(?:a |an )?] *)
Definition opt_article : regex := ROpt (RAlt (RLit "a ") (RLit "an ")).

(** [(?:is |named |called )?] *)
Definition opt_naming : regex :=
  ROpt (RAlt (RLit "is ") (RAlt (RLit "named ") (RLit "called "))).

(** [r"about (?:a |an )?(.+?) who"] *)
Definition pat_about : regex :=
  RCat [RLit "about "; opt_article; capture_lazy; RLit " who"].
(** [r"protagonist (?:is |named |called )?(.+?)[\.,\s]"] *)
Definition pat_protagonist : regex :=
  RCat [RLit "protagonist "; opt_naming; capture_lazy; RSet terminator].
(** [r"main character (?:is |named |called )?(.+?)[\.,\s]"] *)
Definition pat_main_character : regex :=
  RCat [RLit "main character "; opt_naming; capture_lazy; RSet terminator].
(** [r"story of (?:a |an )?(.+?)[\.,\s]"] *)
Definition pat_story_of : regex :=
  RCat [RLit "story of "; opt_article; capture_lazy; RSet terminator].

(** [r"set in (.+?)[\.,\s]"] and its three siblings. *)
Definition pat_set_in : regex :=
  RCat [RLit "set in "; capture_lazy; RSet terminator].
Definition pat_takes_place_in : regex :=
  RCat [RLit "takes place in "; capture_lazy; RSet terminator].
Definition pat_located_in : regex :=
  RCat [RLit "located in "; capture_lazy; RSet terminator].
Definition pat_world_of : regex :=
  RCat [RLit "world of "; capture_lazy; RSet terminator].

(** [PromptAnalyzer.__init__] *)
Definition PromptAnalyzer_init : PromptAnalyzer := {|
  genre_keywords := [
    ("fantasy", ["magic"; "wizard"; "dragon"; "fairy"; "enchanted"; "spell";
                 "mythical"; "magical"; "fantasy"]);
    ("sci-fi", ["space"; "alien"; "robot"; "future"; "technology";
                "spaceship"; "laser"; "cyborg"; "sci-fi"; "science fiction"]);
    ("mystery", ["detective"; "murder"; "clue"; "investigation"; "suspect";
                 "crime"; "mystery"; "solve"]);
    ("horror", ["scary"; "ghost"; "monster"; "haunted"; "nightmare"; "terror";
                "horror"; "frightening"]);
    ("romance", ["love"; "romance"; "dating"; "relationship"; "wedding";
                 "romantic"; "heart"; "couple"]);
    ("adventure", ["journey"; "quest"; "explore"; "adventure"; "treasure";
                   "expedition"; "travel"]);
    ("thriller", ["chase"; "escape"; "danger"; "suspense"; "thriller";
                  "action"; "pursuit"]);
    ("historical", ["medieval"; "ancient"; "historical"; "century"; "war";
                    "kingdom"; "empire"]);
    ("comedy", ["funny"; "humor"; "laugh"; "joke"; "comedy"; "hilarious";
                "amusing"]);
    ("contemporary", ["modern"; "today"; "current"; "realistic"; "everyday"])
  ];
  length_keywords := [
    ("short", ["short"; "brief"; "quick"; "flash"; "micro"]);
    ("medium", ["medium"; "regular"; "standard"]);
    ("long", ["long"; "detailed"; "extended"; "comprehensive"]);
    ("epic", ["epic"; "saga"; "massive"; "huge"; "enormous"])
  ];
  tone_keywords := [
    ("dark", ["dark"; "grim"; "serious"; "somber"; "tragic"]);
    ("light", ["light"; "cheerful"; "happy"; "optimistic"; "bright"]);
    ("humorous", ["funny"; "humorous"; "comedic"; "amusing"; "witty"]);
    ("dramatic", ["dramatic"; "intense"; "emotional"; "powerful"]);
    ("mysterious", ["mysterious"; "enigmatic"; "cryptic"; "puzzling"])
  ];
  character_patterns :=
    [pat_about; pat_protagonist; pat_main_character; pat_story_of];
  setting_patterns :=
    [pat_set_in; pat_takes_place_in; pat_located_in; pat_world_of]
|}.

(** [sum(1 for keyword in keywords if keyword in prompt_lower)] *)
Definition keyword_score (keywords : list string) (prompt_lower : string) : nat :=
  List.length (filter (fun keyword => PyStr.contains keyword prompt_lower) keywords).

(** The loop that fills [genre_scores]: only positive scores are stored. *)
Definition genre_scores_of (table : dict (list string)) (prompt_lower : string)
  : dict nat :=
  fold_left
    (fun genre_scores (item : string * list string) =>
       let (genre, keywords) := item in
       let score := keyword_score keywords prompt_lower in
       if 0 <? score then dict_set genre score genre_scores else genre_scores)
    table [].

(** The loop of the builtin [max]: the running best is replaced only by a
    strictly greater key value, so the first maximum stays. *)
Fixpoint max_loop (best : string) (best_val : nat) (d : dict nat) : string :=
  match d with
  | [] => best
  | (k, v) :: t =>
      if best_val <? v then max_loop k v t else max_loop best best_val t
  end.

(** [max(genre_scores, key=genre_scores.get)] on a dict that is not empty:
    the keys in insertion order, each compared by the value stored under
    it.  The source guards the call with [if genre_scores]. *)
Definition max_by_value (d : dict nat) : option string :=
  match d with
  | [] => None
  | (k, v) :: t => Some (max_loop k v t)
  end.

(** [any(keyword in prompt_lower for keyword in keywords)] *)
Definition any_keyword (keywords : list string) (prompt_lower : string) : bool :=
  existsb (fun keyword => PyStr.contains keyword prompt_lower) keywords.

(** The [for ... if any(...): ...; break] loops of length and tone: the
    first key of the table with a keyword in the prompt. *)
Fixpoint first_label (table : dict (list string)) (prompt_lower : string)
  : option string :=
  match table with
  | [] => None
  | (label, keywords) :: t =>
      if any_keyword keywords prompt_lower then Some label
      else first_label t prompt_lower
  end.

Definition re_IGNORECASE : flags := Flags true false false.

(** [match.group(1)]: IndexError when the pattern has no group 1, [None]
    when the group took no part in the match. *)
Definition group_1 (pattern : regex) (m : match_obj) : res (option string) :=
  if has_group pattern then Ok (m_group1 m) else Raise IndexError.

(** The [for pattern in ...: match = re.search(...); if match: ...; break]
    loops of protagonist and setting: [None] when no pattern matches,
    otherwise [match.group(1).strip()] of the first pattern that does. *)
Fixpoint first_capture (patterns : list regex) (prompt : string)
  : res (option string) :=
  match patterns with
  | [] => Ok None
  | pattern :: t =>
      match search re_IGNORECASE pattern prompt with
      | Some m =>
          g <- group_1 pattern m ;;
          match g with
          | Some text => Ok (Some (PyStr.strip text))
          | None => Raise AttributeError
          end
      | None => first_capture t prompt
      end
  end.

(** [PromptAnalyzer.analyze_prompt] *)
Definition analyze_prompt (self : PromptAnalyzer) (prompt : string)
  : res StoryConfig :=
  let config := StoryConfig_new in
  let config := set_original_prompt prompt config in
  let prompt_lower := PyStr.lower prompt in
  (* Extract genre *)
  let genre_scores := genre_scores_of (genre_keywords self) prompt_lower in
  let config :=
    match max_by_value genre_scores with
    | Some g => set_genre g config
    | None => config
    end in
  (* Extract length *)
  let config :=
    match first_label (length_keywords self) prompt_lower with
    | Some l => set_length l config
    | None => config
    end in
  (* Extract tone *)
  let config :=
    match first_label (tone_keywords self) prompt_lower with
    | Some t => set_tone t config
    | None => config
    end in
  (* Extract protagonist *)
  p <- first_capture (character_patterns self) prompt ;;
  let config :=
    match p with
    | Some text => set_protagonist text config
    | None => config
    end in
  (* Extract setting *)
  s <- first_capture (setting_patterns self) prompt ;;
  let config :=
    match s with
    | Some text => set_setting text config
    | None => config
    end in
  Ok config.

(* ================================================================== *)
(** ** webapp.py: [clean_story_content] *)

Module Webapp.

Definition nl : ascii := "010".
Definition newline : string := String nl EmptyString.

(** [\s+] *)
Definition ws : regex := RPlus true CSpace.

(** [.*?(?=\n\n|\n[A-Z])], the tail every planning pattern ends in. *)
Definition until_break : regex :=
  RSeq (RStar false CDot)
       (RLookahead (RAlt (RLit (newline ++ newline))
                         (RSeq (RLit newline) (RSet (CRange "A" "Z"))))).

(** [^ parts .*?(?=\n\n|\n[A-Z])] *)
Definition planning (parts : list regex) : regex :=
  RSeq RBol (RSeq (RCat parts) until_break).

Definition planning_patterns : list regex := [
  planning [RLit "Check"; ws; RLit "for"; ws; RLit "cultural"];
  planning [RLit "Ensure"; ws; RLit "the"; ws; RLit "story"];
  planning [RLit "Avoid"; ws; RLit "any"; ws];
  planning [RLit "Keep"; ws; RLit "paragraphs"];
  planning [RLit "Let"; ws; RLit "me"; ws; RLit "draft"];
  planning [RLit "Maybe"; ws];
  planning [RLit "Wait,"; ws];
  planning [RLit "Since"; ws];
  planning [RLit "Stick"; ws; RLit "to"; ws; RLit "the"; ws; RLit "request"];
  planning [RLit "Okay,"; ws; RLit "the"; ws; RLit "user"; ws; RLit "wants"];
  planning [RLit "First,"; ws; RLit "I"; ws; RLit "need"; ws; RLit "to"];
  planning [RLit "Let"; ws; RLit "me"; ws; RLit "start"; ws; RLit "by"];
  planning [RLit "I"; ws; RLit "need"; ws; RLit "to"; ws; RLit "build"];
  planning [RLit "The"; ws; RLit "main"; ws; RLit "character"; ws;
            RLit "should"; ws; RLit "be"];
  planning [RLit "Themes:"];
  planning [RLit "Plot"; ws; RLit "structure:"];
  planning [RLit "Vivid"; ws; RLit "descriptions:"];
  planning [RLit "Dialogue"; ws; RLit "examples:"];
  planning [RLit "Ending:"];
  planning [RLit "Need"; ws; RLit "to"; ws; RLit "ensure"];
  planning [RLit "Make"; ws; RLit "sure"; ws; RLit "the"; ws; RLit "story"]
].

(** [re.DOTALL | re.MULTILINE] *)
Definition sub_flags : flags := Flags false true true.

Definition planning_keywords : list string := [
  "check for"; "ensure"; "avoid"; "keep"; "let me"; "maybe"; "wait"; "since";
  "stick to"; "okay"; "first"; "i need"; "the main"; "themes:"; "plot";
  "vivid"; "dialogue"; "ending:"; "need to"; "make sure"; "step by step";
  "making sure"; "draft it"
].

(** The [for i, line in enumerate(lines)] loop: the index of the first
    line that is not blank and holds no planning keyword, if there is one. *)
Fixpoint find_story_start (i : nat) (lines : list string) : option nat :=
  match lines with
  | [] => None
  | line :: t =>
      let line_lower := PyStr.strip (PyStr.lower line) in
      if negb (String.eqb line_lower "")
         && negb (existsb (fun keyword => PyStr.contains keyword line_lower)
                          planning_keywords)
      then Some i
      else find_story_start (S i) t
  end.

(** The value of [cleaned_text] when the length test is reached. *)
Definition cleaned_text (story_text : string) : string :=
  let cleaned :=
    fold_left (fun text pattern => sub_empty sub_flags pattern text)
              planning_patterns story_text in
  let lines := PyStr.split nl cleaned in
  let story_start_idx :=
    match find_story_start 0 lines with
    | Some i => i
    | None => 0
    end in
  let cleaned_lines := skipn story_start_idx lines in
  PyStr.strip (PyStr.join newline cleaned_lines).

(** [clean_story_content] *)
Definition clean_story_content (story_text : string) : string :=
  if PyStr.len (cleaned_text story_text) <? 100
  then PyStr.strip story_text
  else cleaned_text story_text.

End Webapp.

(* ================================================================== *)
(** ** [analyze_prompt] on the objects it reads and writes *)

Module Objects.

(** The objects a call can reach: the analyzer it is called on, whose
    attributes hold the tables and the pattern lists, and the [StoryConfig]
    instances made so far.  A reference to an instance is its position in
    [configs]. *)
Record store := mkStore {
  analyzer : PromptAnalyzer;
  configs : list StoryConfig
}.

Definition ref := nat.

(** A statement: from a store, a value or an exception, and the store it
    leaves. *)
Definition stmt (A : Type) : Type := store -> res A * store.

Definition ret {A : Type} (a : A) : stmt A := fun st => (Ok a, st).

Definition seq {A B : Type} (m : stmt A) (f : A -> stmt B) : stmt B :=
  fun st =>
    match m st with
    | (Ok a, st') => f a st'
    | (Raise e, st') => (Raise e, st')
    end.

Notation "x <- m ;;; f" := (seq m (fun x => f))
  (at level 61, m at next level, right associativity).

(** A computation on values alone. *)
Definition lift {A : Type} (r : res A) : stmt A := fun st => (r, st).

(** [StoryConfig()]: a new instance with the defaults of the dataclass. *)
Definition new_StoryConfig : stmt ref :=
  fun st =>
    (Ok (List.length (configs st)),
     mkStore (analyzer st) (configs st ++ [StoryConfig_new])%list).

Fixpoint update (r : ref) (assign : StoryConfig -> StoryConfig)
         (l : list StoryConfig) : list StoryConfig :=
  match l, r with
  | [], _ => []
  | c :: t, O => assign c :: t
  | c :: t, S r' => c :: update r' assign t
  end.

(** [config.f = v] on the instance [config] refers to. *)
Definition setattr (config : ref) (assign : StoryConfig -> StoryConfig)
  : stmt unit :=
  fun st => (Ok tt, mkStore (analyzer st) (update config assign (configs st))).

(** [self.f] *)
Definition getattr_self {A : Type} (attr : PromptAnalyzer -> A) : stmt A :=
  fun st => (Ok (attr (analyzer st)), st).

(** [PromptAnalyzer.analyze_prompt], statement by statement: the record is
    a new instance, written field by field, and the reference to it is
    returned; [genre_scores], [prompt_lower] and [match] are locals. *)
Definition analyze_prompt (prompt : string) : stmt ref :=
  config <- new_StoryConfig ;;;
  _ <- setattr config (set_original_prompt prompt) ;;;
  let prompt_lower := PyStr.lower prompt in
  (* Extract genre *)
  table <- getattr_self genre_keywords ;;;
  let genre_scores := genre_scores_of table prompt_lower in
  _ <- match max_by_value genre_scores with
       | Some g => setattr config (set_genre g)
       | None => ret tt
       end ;;;
  (* Extract length *)
  table <- getattr_self length_keywords ;;;
  _ <- match first_label table prompt_lower with
       | Some l => setattr config (set_length l)
       | None => ret tt
       end ;;;
  (* Extract tone *)
  table <- getattr_self tone_keywords ;;;
  _ <- match first_label table prompt_lower with
       | Some t => setattr config (set_tone t)
       | None => ret tt
       end ;;;
  (* Extract protagonist *)
  patterns <- getattr_self character_patterns ;;;
  p <- lift (first_capture patterns prompt) ;;;
  _ <- match p with
       | Some text => setattr config (set_protagonist text)
       | None => ret tt
       end ;;;
  (* Extract setting *)
  patterns <- getattr_self setting_patterns ;;;
  s <- lift (first_capture patterns prompt) ;;;
  _ <- match s with
       | Some text => setattr config (set_setting text)
       | None => ret tt
       end ;;;
  ret config.

End Objects.

(* ================================================================== *)
(** ** Vocabulary of the statements *)

(** The closed sets of the three enumerated fields. *)
Definition genre_set : list string :=
  ["fantasy"; "sci-fi"; "mystery"; "horror"; "romance"; "adventure";
   "thriller"; "historical"; "comedy"; "contemporary"; "general"].
Definition length_set : list string := ["short"; "medium"; "long"; "epic"].
Definition tone_set : list string :=
  ["dark"; "light"; "humorous"; "dramatic"; "mysterious"; "neutral"].

(** The declared order of the genre table. *)
Definition genre_order : list string :=
  ["fantasy"; "sci-fi"; "mystery"; "horror"; "romance"; "adventure";
   "thriller"; "historical"; "comedy"; "contemporary"].

(** The keyword score of a genre, by its name. *)
Definition genre_score (g prompt : string) : nat :=
  match dict_get g (genre_keywords PromptAnalyzer_init) with
  | Some keywords => keyword_score keywords (PyStr.lower prompt)
  | None => 0
  end.

(** The positive scores of a table, entry by entry. *)
Definition scored (table : dict (list string)) (prompt_lower : string)
  : dict nat :=
  filter (fun kv => 0 <? snd kv)
         (map (fun item : string * list string =>
                 (fst item, keyword_score (snd item) prompt_lower))
              table).

(** A pattern in which every match goes through group 1. *)
Fixpoint sets_group (r : regex) : bool :=
  match r with
  | RGroup _ => true
  | RSeq a b => sets_group a || sets_group b
  | RAlt a b => sets_group a && sets_group b
  | _ => false
  end.

(** A continuation that never loses what group 1 holds. *)
Definition keeps_group (k : mstate -> option mstate) : Prop :=
  forall st st', k st = Some st' -> group1 st <> None -> group1 st' <> None.

(** [s'] is what is left of [s] after some of its characters. *)
Definition is_suffix (s' s : string) : Prop := exists p, s = p ++ s'.

(** No period, comma or whitespace in the string. *)
Fixpoint no_terminator (s : string) : bool :=
  match s with
  | EmptyString => true
  | String c s' => negb (in_cset re_IGNORECASE terminator c) && no_terminator s'
  end.

(** No period, comma or whitespace after the first character: the string
    is one token that runs to its end. *)
Definition single_token (w : string) : bool :=
  match w with
  | EmptyString => true
  | String _ w' => no_terminator w'
  end.

(** The literal holds a blank. *)
Fixpoint has_blank (l : string) : bool :=
  match l with
  | EmptyString => false
  | String c l' => Ascii.eqb c " " || has_blank l'
  end.

(** The literal holds a blank after its first character. *)
Definition has_inner_blank (l : string) : bool :=
  match l with
  | EmptyString => false
  | String _ l' => has_blank l'
  end.

(** Some character of the literal [l] differs from the character of [u]
    at the same place. *)
Fixpoint lit_clash (fl : flags) (l u : string) : bool :=
  match l, u with
  | String p l', String c u' => negb (chr_eq fl p c) || lit_clash fl l' u'
  | _, _ => false
  end.

(** The literal clashes with [u] at every position of [u]. *)
Fixpoint clash_everywhere (fl : flags) (l u : string) : bool :=
  match u with
  | EmptyString => true
  | String _ u' => lit_clash fl l u && clash_everywhere fl l u'
  end.

(** The introducers of the protagonist and setting patterns that end in
    [[\.,\s]], each with its pattern. *)
Definition character_introducers : list (string * regex) :=
  [("protagonist ", pat_protagonist);
   ("main character ", pat_main_character);
   ("story of ", pat_story_of)].
Definition setting_introducers : list (string * regex) :=
  [("set in ", pat_set_in);
   ("takes place in ", pat_takes_place_in);
   ("located in ", pat_located_in);
   ("world of ", pat_world_of)].

(** The record [analyze_prompt] builds, once the two captures are known. *)
Definition built (prompt : string) (p s : option string) : StoryConfig :=
  let prompt_lower := PyStr.lower prompt in
  let c0 := set_original_prompt prompt StoryConfig_new in
  let c1 := match max_by_value
                    (genre_scores_of (genre_keywords PromptAnalyzer_init)
                                     prompt_lower) with
            | Some g => set_genre g c0
            | None => c0
            end in
  let c2 := match first_label (length_keywords PromptAnalyzer_init) prompt_lower with
            | Some l => set_length l c1
            | None => c1
            end in
  let c3 := match first_label (tone_keywords PromptAnalyzer_init) prompt_lower with
            | Some t => set_tone t c2
            | None => c2
            end in
  let c4 := match p with Some text => set_protagonist text c3 | None => c3 end in
  match s with Some text => set_setting text c4 | None => c4 end.

(** The prompts of the worked examples. *)
Definition wizard_prompt : string :=
  "A fantasy story about a young wizard who saves his village".
Definition hospital_prompt : string :=
  "Write a short horror story set in an abandoned hospital".
Definition tie_prompt : string := "A robot meets a wizard".

(** A generated text that opens with two planning paragraphs, and a short
    one. *)
Definition planned_story : string :=
  "Okay, the user wants a story about cats." ++ Webapp.newline
  ++ "First, I need to think." ++ Webapp.newline ++ Webapp.newline
  ++ "maybe a cat" ++ Webapp.newline
  ++ "Once upon a time there was a cat named Tom who lived in a small house "
  ++ "by the sea, and every day he went fishing with his friends."
  ++ Webapp.newline ++ "The end." ++ Webapp.newline.
Definition planned_note : string :=
  "Maybe x" ++ Webapp.newline ++ Webapp.newline ++ "Hello.".

(* ================================================================== *)
(** ** storycraft.py: [StoryCraftGenerator] *)

Module Generator.

Definition nl : string := Webapp.newline.

(** A call that returns, or a subscript [d[key]] on a key that is not
    there. *)
Inductive outcome (A : Type) :=
| Returned (a : A)
| KeyError (key : string).
Arguments Returned {A} a.
Arguments KeyError {A} key.

Definition and_then {A B : Type} (m : outcome A) (f : A -> outcome B)
  : outcome B :=
  match m with
  | Returned a => f a
  | KeyError key => KeyError key
  end.

Notation "x <~ m ;; f" := (and_then m (fun x => f))
  (at level 61, m at next level, right associativity).

(** [d[key]] *)
Definition subscript {V : Type} (d : dict V) (key : string) : outcome V :=
  match dict_get key d with
  | Some v => Returned v
  | None => KeyError key
  end.

(** [str(n)] of a non-negative [int], as an f-string prints it. *)
Definition str_of_int (n : nat) : string :=
  NilEmpty.string_of_uint (Nat.to_uint n).

(** The truth value of a [str]: false for the empty string only. *)
Definition truthy (s : string) : bool := negb (String.eqb s "").

(** An entry of [self.lengths]. *)
Record length_info := mkLengthInfo { words : nat; description : string }.

(** The attributes of a [StoryCraftGenerator] its pure methods read. *)
Record StoryCraftGenerator := mkGenerator {
  analyzer : PromptAnalyzer;
  lengths : dict length_info
}.

(** [StoryCraftGenerator.__init__] *)
Definition StoryCraftGenerator_init : StoryCraftGenerator := {|
  analyzer := PromptAnalyzer_init;
  lengths := [
    ("short", mkLengthInfo 500 "Short story (~500 words)");
    ("medium", mkLengthInfo 1500 "Medium story (~1500 words)");
    ("long", mkLengthInfo 3000 "Long story (~3000 words)");
    ("epic", mkLengthInfo 5000 "Epic story (~5000 words)")
  ]
|}.

(** The closing block of the generation prompt, around the word count. *)
Definition closing_before : string :=
  nl ++ "Please create a complete, engaging story that fulfills this request. Make sure to:"
  ++ nl ++ "- Create compelling characters with clear motivations"
  ++ nl ++ "- Include vivid descriptions and engaging dialogue"
  ++ nl ++ "- Ensure the story has a clear beginning, middle, and satisfying end"
  ++ nl ++ "- Write approximately ".
Definition closing_after : string :=
  " words" ++ nl ++ nl ++ "Write the story now:".

(** [StoryCraftGenerator._build_story_prompt] *)
Definition _build_story_prompt (self : StoryCraftGenerator)
           (user_prompt : string) (config : StoryConfig) : outcome string :=
  let prompt :=
    "Write a story based on this request: '" ++ user_prompt ++ "'" ++ nl ++ nl in
  let prompt :=
    if negb (String.eqb (genre config) "general")
    then prompt ++ "Genre: " ++ genre config ++ nl
    else prompt in
  prompt <~ (if truthy (length config)
             then info <~ subscript (lengths self) (length config) ;;
                  Returned (prompt ++ "Length: " ++ description info ++ nl)
             else Returned prompt) ;;
  let prompt :=
    if negb (String.eqb (tone config) "neutral")
    then prompt ++ "Tone: " ++ tone config ++ nl
    else prompt in
  let prompt :=
    if truthy (protagonist config)
    then prompt ++ "Main character: " ++ protagonist config ++ nl
    else prompt in
  let prompt :=
    if truthy (setting config)
    then prompt ++ "Setting: " ++ setting config ++ nl
    else prompt in
  info <~ subscript (lengths self) (length config) ;;
  Returned (prompt ++ closing_before ++ str_of_int (words info) ++ closing_after).

(** What [_make_api_request(prompt, max_tokens)] ends in: the story or
    [None] (a [RequestException] or a [KeyError] is caught and gives [None]),
    or an exception of another class, which leaves it: [IndexError] on an
    empty [choices] list, [TypeError] on an answer of another shape. *)
Inductive request_outcome :=
| Answered (story : option string)
| Escaped (exception : string).

Section Api.

(** The HTTP request, as the service answers it. *)
Variable _make_api_request : string -> nat -> request_outcome.

(** [StoryCraftGenerator.generate_story], without its log line: a
    [KeyError] of its own subscripts, or what its one request ends in. *)
Definition generate_story (self : StoryCraftGenerator)
           (user_prompt : string) (config : StoryConfig)
  : outcome request_outcome :=
  prompt <~ _build_story_prompt self user_prompt config ;;
  info <~ subscript (lengths self) (length config) ;;
  let max_tokens := Nat.min (words info * 2) 4000 in
  Returned (_make_api_request prompt max_tokens).

End Api.

(** What the user answers to the questions of
    [ask_clarifying_questions], for the questions that are asked: the
    length choice, whether to add details, the main character and the
    setting. *)
Record answers := mkAnswers {
  length_choice : string;
  add_details : bool;
  protagonist_answer : string;
  setting_answer : string
}.

Definition length_map : dict string :=
  [("1", "short"); ("2", "medium"); ("3", "long"); ("4", "epic")].

(** [any(keyword in prompt_lower for keywords in table.values()
         for keyword in keywords)] *)
Definition any_length_keyword (table : dict (list string)) (prompt_lower : string)
  : bool :=
  existsb (fun item : string * list string => any_keyword (snd item) prompt_lower)
          table.

(** [StoryCraftGenerator.ask_clarifying_questions], the console output
    left out: the record it returns under the user's answers. *)
Definition ask_clarifying_questions (self : StoryCraftGenerator)
           (user : answers) (config : StoryConfig) : outcome StoryConfig :=
  config <~ (if String.eqb (length config) "medium"
                && negb (any_length_keyword
                           (length_keywords (analyzer self))
                           (PyStr.lower (original_prompt config)))
             then l <~ subscript length_map (length_choice user) ;;
                  Returned (set_length l config)
             else Returned config) ;;
  let config :=
    if negb (truthy (protagonist config)) && negb (truthy (setting config))
       && String.eqb (genre config) "general"
    then
      if add_details user then
        let config :=
          if negb (truthy (protagonist config))
          then if truthy (protagonist_answer user)
               then set_protagonist (protagonist_answer user) config
               else config
          else config in
        let config :=
          if negb (truthy (setting config))
          then if truthy (setting_answer user)
               then set_setting (setting_answer user) config
               else config
          else config in
        config
      else config
    else config in
  Returned config.

(** The class [\w] of [re] on code points below 256: the alphanumeric
    characters and the underscore. *)
Definition is_word (c : ascii) : bool :=
  let n := nat_of_ascii c in
  ((48 <=? n) && (n <=? 57)) || ((65 <=? n) && (n <=? 90)) || (n =? 95)
  || ((97 <=? n) && (n <=? 122))
  || (n =? 170) || (n =? 178) || (n =? 179) || (n =? 181) || (n =? 185)
  || (n =? 186) || ((188 <=? n) && (n <=? 190))
  || ((192 <=? n) && (n <=? 214)) || ((216 <=? n) && (n <=? 246))
  || (248 <=? n).

(** [re.sub(r'[...]', repl, s)] for a pattern that is one bracket class:
    every character of the class is replaced. *)
Fixpoint sub_class (cls : ascii -> bool) (repl : string) (s : string) : string :=
  match s with
  | EmptyString => EmptyString
  | String c s' =>
      if cls c then repl ++ sub_class cls repl s'
      else String c (sub_class cls repl s')
  end.

(** [re.sub(r'[...]+', repl, s)] for one bracket class under a greedy
    [+]: every maximal run of characters of the class is replaced once.
    [in_run] says that the character before belongs to the run. *)
Fixpoint sub_runs (cls : ascii -> bool) (repl : string)
         (in_run : bool) (s : string) : string :=
  match s with
  | EmptyString => EmptyString
  | String c s' =>
      if cls c
      then if in_run then sub_runs cls repl true s'
           else repl ++ sub_runs cls repl true s'
      else String c (sub_runs cls repl false s')
  end.

(** [[^\w\s-]] *)
Definition unsafe_char (c : ascii) : bool :=
  negb (is_word c || PyStr.is_space c || Ascii.eqb c "-").

(** [[-\s]] *)
Definition separator_char (c : ascii) : bool :=
  Ascii.eqb c "-" || PyStr.is_space c.

(** The two assignments to [safe_prompt] in [save_story]. *)
Definition safe_prompt (original_prompt : string) : string :=
  let safe_prompt :=
    PyStr.strip (sub_class unsafe_char "" (substring 0 30 original_prompt)) in
  sub_runs separator_char "_" false safe_prompt.

(** [filename] in [save_story], for the [timestamp] the clock gives. *)
Definition story_filename (timestamp : string) (config : StoryConfig) : string :=
  "story_" ++ safe_prompt (original_prompt config) ++ "_" ++ timestamp ++ ".md".

Section Saving.

(** [str.title()], taken as given: on some code points below 256 its value
    lies above them. *)
Variable title : string -> string.

(** What the clock gives at the two places the file shows it:
    [strftime("%Y%m%d_%H%M%S")] for the name and
    [strftime('%Y-%m-%d at %H:%M')] for the header. *)
Variable timestamp : string.
Variable generated : string.

(** [StoryCraftGenerator.save_story]: the name of the file under
    [stories_dir] and the text written to it.  The [metadata] dict the
    method builds is not used by it and is left out, as is the log line. *)
Definition save_story (self : StoryCraftGenerator)
           (story : string) (config : StoryConfig) : outcome (string * string) :=
  let filename := story_filename timestamp config in
  info <~ subscript (lengths self) (length config) ;;
  let content :=
    "# " ++ substring 0 50 (original_prompt config)
    ++ (if 50 <? PyStr.len (original_prompt config) then "..." else "")
    ++ nl ++ nl
    ++ "## Story Details" ++ nl
    ++ "- **Original Request**: " ++ original_prompt config ++ nl
    ++ "- **Genre**: " ++ title (genre config) ++ nl
    ++ "- **Length**: " ++ description info ++ nl
    ++ "- **Generated**: " ++ generated ++ nl
    ++ nl ++ "---" ++ nl ++ nl
    ++ story ++ nl
    ++ nl ++ "---" ++ nl
    ++ "*Generated by StoryCraft AI Story Generator*" ++ nl in
  Returned (filename, content).

End Saving.

End Generator.

(* ================================================================== *)
(** ** webapp.py: the [/generate] route *)

Module Routes.

Import Generator.

(** An uploaded file: its name and [file.read().decode('utf-8')], [None]
    when reading or decoding raises. *)
Record upload := mkUpload { filename : string; decoded : option string }.

(** The parts of a Flask request the handler reads. *)
Record request := mkRequest { form : dict string; files : dict upload }.

(** What the handler answers: a body with a status, the redirect to the
    page of a saved story, the 400 of [request.form[key]] on a missing key,
    or an exception that leaves the handler: a [KeyError], an exception
    of the analysis, or the one that left the API request. *)
Inductive response :=
| Body (text : string) (status : nat)
| Redirect (story_file : string)
| BadRequestKeyError (key : string)
| UnhandledKeyError (key : string)
| UnhandledError (e : exn)
| UnhandledRequestError (exception : string).

(** [s.endswith(suffix)] *)
Fixpoint endswith (suffix s : string) : bool :=
  String.eqb suffix s
  || match s with
     | EmptyString => false
     | String _ s' => endswith suffix s'
     end.

Section Handler.

Variable _make_api_request : string -> nat -> request_outcome.
Variable title : string -> string.
Variable timestamp : string.
Variable generated : string.

(** [generate()], the handler of [POST /generate]. *)
Definition generate (req : request) : response :=
  match dict_get "prompt" (form req) with
  | None => BadRequestKeyError "prompt"
  | Some user_prompt =>
      (* Handle file upload *)
      let user_prompt :=
        match dict_get "story_file" (files req) with
        | Some file =>
            if negb (String.eqb (filename file) "")
               && endswith ".txt" (filename file)
            then match decoded file with
                 | Some file_content =>
                     if truthy (PyStr.strip file_content)
                     then PyStr.strip file_content
                     else user_prompt
                 | None => user_prompt
                 end
            else user_prompt
        | None => user_prompt
        end in
      if negb (truthy user_prompt)
      then Body "Please provide a story prompt" 400
      else
        match analyze_prompt PromptAnalyzer_init user_prompt with
        | Raise e => UnhandledError e
        | Ok config =>
            (* Override with manual settings if provided *)
            let config :=
              match dict_get "length" (form req) with
              | Some l => if truthy l then set_length l config else config
              | None => config
              end in
            let config :=
              match dict_get "genre" (form req) with
              | Some g => if truthy g then set_genre g config else config
              | None => config
              end in
            (* Set default length if not detected *)
            let config :=
              if negb (truthy (length config))
              then set_length "medium" config
              else config in
            match generate_story _make_api_request StoryCraftGenerator_init
                                 user_prompt config with
            | KeyError key => UnhandledKeyError key
            | Returned (Escaped exception) => UnhandledRequestError exception
            | Returned (Answered None) => Body "Error generating story" 500
            | Returned (Answered (Some story)) =>
                if truthy story
                then
                  let cleaned_story := Webapp.clean_story_content story in
                  match save_story title timestamp generated
                                   StoryCraftGenerator_init
                                   cleaned_story config with
                  | KeyError key => UnhandledKeyError key
                  | Returned (name, _) => Redirect name
                  end
                else Body "Error generating story" 500
            end
        end
  end.

End Handler.

End Routes.


(* ================================================================== *)
(** ** Vocabulary of the further statements *)

(** Every character of the string satisfies [p]. *)
Fixpoint all_chars (p : ascii -> bool) (s : string) : bool :=
  match s with
  | EmptyString => true
  | String c s' => p c && all_chars p s'
  end.

(** [a] is [b] with some characters deleted. *)
Inductive subseq : string -> string -> Prop :=
| subseq_nil : subseq "" ""
| subseq_keep (c : ascii) (a b : string) :
    subseq a b -> subseq (String c a) (String c b)
| subseq_drop (c : ascii) (a b : string) :
    subseq a b -> subseq a (String c b).

(** [a] stands in [b] as a run of consecutive characters. *)
Definition substring_of (a b : string) : Prop :=
  exists before after, b = before ++ a ++ after.

(** A cursor and a match object with their text in lower case. *)
Definition lower_state (st : mstate) : mstate :=
  MState (consumed st) (option_map PyStr.lower_char (last st))
         (PyStr.lower (rest st)) (option_map PyStr.lower (group1 st)).

Definition lower_match (m : match_obj) : match_obj :=
  Match (m_start m) (m_len m) (option_map PyStr.lower (m_group1 m)).

(** No newline in the string. *)
Definition one_line (s : string) : bool :=
  all_chars (fun c => negb (Ascii.eqb c Webapp.nl)) s.

(** What group 1 holds is a piece of the subject [s]. *)
Definition group_within (s : string) (st : mstate) : Prop :=
  forall g, group1 st = Some g -> substring_of g s.

(** A continuation that, from a cursor inside [s], keeps group 1 a piece
    of [s]. *)
Definition keeps_within (s : string) (k : mstate -> option mstate) : Prop :=
  forall st1 st2,
    is_suffix (rest st1) s -> group_within s st1 -> k st1 = Some st2 ->
    group_within s st2.

Definition not_space (c : ascii) : bool := negb (PyStr.is_space c).

(* ================================================================== *)
(** ** The matcher keeps and sets group 1 *)

Section Groups.
Variable fl : flags.

Lemma lit_group (l : string) :
  forall st st', lit fl l st = Some st' -> group1 st' = group1 st.
Proof.
  induction l as [|p l IH]; simpl; intros st st' H.
  - now inversion H.
  - destruct (rest st) as [|c s']; [discriminate|].
    destruct (chr_eq fl p c); [|discriminate].
    now rewrite (IH _ _ H).
Qed.

Lemma star_keeps (greedy : bool) (cs : cset) (k : mstate -> option mstate) :
  keeps_group k ->
  forall s n l g st',
    star fl greedy cs k n l g s = Some st' -> g <> None -> group1 st' <> None.
Proof.
  intros Hk. induction s as [|c s IH]; intros n l g st' H Hg.
  - simpl in H. destruct greedy.
    + exact (Hk _ _ H Hg).
    + destruct (k (MState n l "" g)) eqn:E; [|discriminate].
      inversion H; subst. exact (Hk _ _ E Hg).
  - simpl in H. destruct greedy.
    + destruct (in_cset fl cs c).
      * destruct (star fl true cs k (S n) (Some c) g s) eqn:E.
        -- inversion H; subst. exact (IH _ _ _ _ E Hg).
        -- exact (Hk _ _ H Hg).
      * exact (Hk _ _ H Hg).
    + destruct (k (MState n l (String c s) g)) eqn:E.
      * inversion H; subst. exact (Hk _ _ E Hg).
      * destruct (in_cset fl cs c); [|discriminate].
        exact (IH _ _ _ _ H Hg).
Qed.

Lemma rmatch_keeps (r : regex) :
  forall k, keeps_group k -> keeps_group (fun st => rmatch fl r st k).
Proof.
  induction r as [|l|cs|greedy cs|a IHa b IHb|a IHa b IHb|a IHa|a IHa| |a IHa];
    intros k Hk st st' H Hg; simpl in H.
  - exact (Hk _ _ H Hg).
  - destruct (lit fl l st) as [st1|] eqn:E; [|discriminate].
    apply (Hk _ _ H). rewrite (lit_group _ _ _ E). exact Hg.
  - destruct (rest st) as [|c s']; [discriminate|].
    destruct (in_cset fl cs c); [|discriminate].
    exact (Hk _ _ H Hg).
  - exact (star_keeps greedy cs k Hk _ _ _ _ _ H Hg).
  - exact (IHa _ (IHb _ Hk) _ _ H Hg).
  - destruct (rmatch fl a st k) eqn:E.
    + inversion H; subst. exact (IHa _ Hk _ _ E Hg).
    + exact (IHb _ Hk _ _ H Hg).
  - destruct (rmatch fl a st k) eqn:E.
    + inversion H; subst. exact (IHa _ Hk _ _ E Hg).
    + exact (Hk _ _ H Hg).
  - refine (IHa _ _ _ _ H Hg).
    intros st1 st2 H1 _. apply (Hk _ _ H1). discriminate.
  - destruct (at_bol fl st); [|discriminate]. exact (Hk _ _ H Hg).
  - destruct (rmatch fl a st Some); [|discriminate]. exact (Hk _ _ H Hg).
Qed.

Lemma star_from_k (greedy : bool) (cs : cset) (k : mstate -> option mstate) :
  forall s n l g st',
    star fl greedy cs k n l g s = Some st' -> exists st1, k st1 = Some st'.
Proof.
  induction s as [|c s IH]; intros n l g st' H; simpl in H.
  - destruct greedy.
    + eauto.
    + destruct (k (MState n l "" g)) eqn:E; [|discriminate].
      inversion H; subst. eauto.
  - destruct greedy.
    + destruct (in_cset fl cs c).
      * destruct (star fl true cs k (S n) (Some c) g s) eqn:E.
        -- inversion H; subst. eauto.
        -- eauto.
      * eauto.
    + destruct (k (MState n l (String c s) g)) eqn:E.
      * inversion H; subst. eauto.
      * destruct (in_cset fl cs c); [|discriminate]. eauto.
Qed.

(** Whatever [rmatch] returns, the continuation returned it. *)
Lemma rmatch_from_k (r : regex) :
  forall k st st', rmatch fl r st k = Some st' -> exists st1, k st1 = Some st'.
Proof.
  induction r as [|l|cs|greedy cs|a IHa b IHb|a IHa b IHb|a IHa|a IHa| |a IHa];
    intros k st st' H; simpl in H.
  - eauto.
  - destruct (lit fl l st); [eauto|discriminate].
  - destruct (rest st) as [|c s']; [discriminate|].
    destruct (in_cset fl cs c); [eauto|discriminate].
  - eapply star_from_k; eauto.
  - destruct (IHa _ _ _ H) as [st1 H1]. eauto.
  - destruct (rmatch fl a st k) eqn:E.
    + inversion H; subst. eauto.
    + eauto.
  - destruct (rmatch fl a st k) eqn:E.
    + inversion H; subst. eauto.
    + eauto.
  - destruct (IHa _ _ _ H) as [st1 H1]. eauto.
  - destruct (at_bol fl st); [eauto|discriminate].
  - destruct (rmatch fl a st Some); [eauto|discriminate].
Qed.

Lemma rmatch_sets (r : regex) :
  sets_group r = true ->
  forall k st st',
    keeps_group k -> rmatch fl r st k = Some st' -> group1 st' <> None.
Proof.
  induction r as [|l|cs|greedy cs|a IHa b IHb|a IHa b IHb|a IHa|a IHa| |a IHa];
    simpl; intros Hs k st st' Hk H; try discriminate.
  - apply orb_true_iff in Hs. destruct Hs as [Hs|Hs].
    + refine (IHa Hs _ _ _ _ H). exact (rmatch_keeps b k Hk).
    + destruct (rmatch_from_k a _ _ _ H) as [st1 H1].
      exact (IHb Hs _ _ _ Hk H1).
  - apply andb_true_iff in Hs. destruct Hs as [Hsa Hsb].
    destruct (rmatch fl a st k) eqn:E.
    + inversion H; subst. exact (IHa Hsa _ _ _ Hk E).
    + exact (IHb Hsb _ _ _ Hk H).
  - destruct (rmatch_from_k a _ _ _ H) as [st1 H1].
    apply (Hk _ _ H1). discriminate.
Qed.

(** A match of such a pattern holds a text in group 1. *)
Lemma search_from_group (r : regex) :
  sets_group r = true ->
  forall s off l m,
    search_from fl r off l s = Some m -> exists g, m_group1 m = Some g.
Proof.
  intros Hs. induction s as [|c s IH]; intros off l m H; simpl in H;
    unfold match_here in H.
  - destruct (rmatch fl r (MState 0 l "" None) Some) as [st|] eqn:E;
      [|discriminate].
    inversion H; subst; simpl.
    assert (G : group1 st <> None).
    { refine (rmatch_sets r Hs Some _ _ _ E).
      intros st1 st2 H1 Hg. now inversion H1; subst. }
    destruct (group1 st); [eauto|congruence].
  - destruct (rmatch fl r (MState 0 l (String c s) None) Some) as [st|] eqn:E.
    + inversion H; subst; simpl.
      assert (G : group1 st <> None).
      { refine (rmatch_sets r Hs Some _ _ _ E).
        intros st1 st2 H1 Hg. now inversion H1; subst. }
      destruct (group1 st); [eauto|congruence].
    + eauto.
Qed.

End Groups.

(* ================================================================== *)
(** ** The analyzer returns *)

Lemma sets_group_has_group (r : regex) : sets_group r = true -> has_group r = true.
Proof.
  induction r; simpl; intros H; try discriminate; auto.
  - apply orb_true_iff in H. apply orb_true_iff. tauto.
  - apply andb_true_iff in H. apply orb_true_iff. tauto.
Qed.

Lemma first_capture_returns (patterns : list regex) (prompt : string) :
  Forall (fun r => sets_group r = true) patterns ->
  exists o, first_capture patterns prompt = Ok o.
Proof.
  induction 1 as [|r rs Hr _ IH]; simpl.
  - eauto.
  - destruct (search re_IGNORECASE r prompt) as [m|] eqn:E; [|exact IH].
    unfold group_1. rewrite (sets_group_has_group r Hr). simpl.
    destruct (search_from_group _ r Hr _ _ _ _ E) as [g Hg].
    rewrite Hg. eauto.
Qed.

Lemma init_character_patterns_set_group :
  Forall (fun r => sets_group r = true) (character_patterns PromptAnalyzer_init).
Proof. repeat constructor. Qed.

Lemma init_setting_patterns_set_group :
  Forall (fun r => sets_group r = true) (setting_patterns PromptAnalyzer_init).
Proof. repeat constructor. Qed.

Lemma analyze_prompt_returns (prompt : string) :
  exists p s,
    first_capture (character_patterns PromptAnalyzer_init) prompt = Ok p /\
    first_capture (setting_patterns PromptAnalyzer_init) prompt = Ok s /\
    analyze_prompt PromptAnalyzer_init prompt = Ok (built prompt p s).
Proof.
  destruct (first_capture_returns _ prompt init_character_patterns_set_group)
    as [p Hp].
  destruct (first_capture_returns _ prompt init_setting_patterns_set_group)
    as [s Hs].
  exists p, s. repeat split; trivial.
  unfold analyze_prompt. rewrite Hp. unfold bind at 1. rewrite Hs. reflexivity.
Qed.

(* ================================================================== *)
(** ** Where the three enumerated fields come from *)

Lemma max_loop_in (d : dict nat) :
  forall best best_val, In (max_loop best best_val d) (best :: keys d).
Proof.
  induction d as [|[k v] t IH]; intros best best_val; simpl.
  - now left.
  - destruct (best_val <? v).
    + right. exact (IH k v).
    + destruct (IH best best_val) as [H|H]; [now left|now right; right].
Qed.

Lemma max_by_value_in (d : dict nat) (g : string) :
  max_by_value d = Some g -> In g (keys d).
Proof.
  destruct d as [|[k v] t]; simpl; intros H; [discriminate|].
  inversion H; subst. exact (max_loop_in t k v).
Qed.

Lemma dict_set_keys {V : Type} (k : string) (v : V) (d : dict V) (x : string) :
  In x (keys (dict_set k v d)) -> x = k \/ In x (keys d).
Proof.
  induction d as [|[k' v'] t IH]; simpl.
  - intros [H|[]]; auto.
  - destruct (String.eqb k k') eqn:E; simpl.
    + apply String.eqb_eq in E. subst k'. intros [H|H]; auto.
    + intros [H|H]; auto. destruct (IH H); auto.
Qed.

Lemma genre_scores_keys (prompt_lower : string) (table : dict (list string)) :
  forall acc x,
    In x (keys (fold_left
      (fun genre_scores (item : string * list string) =>
         let (genre, keywords) := item in
         let score := keyword_score keywords prompt_lower in
         if 0 <? score then dict_set genre score genre_scores else genre_scores)
      table acc)) ->
    In x (keys acc) \/ In x (keys table).
Proof.
  induction table as [|[g kws] t IH]; intros acc x H; simpl in *.
  - now left.
  - destruct (IH _ _ H) as [H1|H1]; [|now right; right].
    destruct (0 <? keyword_score kws prompt_lower); [|now left].
    destruct (dict_set_keys _ _ _ _ H1) as [->|H2]; [right; now left|now left].
Qed.

Lemma first_label_in (prompt_lower : string) (table : dict (list string)) :
  forall l, first_label table prompt_lower = Some l -> In l (keys table).
Proof.
  induction table as [|[label kws] t IH]; simpl; intros l H; [discriminate|].
  destruct (any_keyword kws prompt_lower).
  - inversion H. now left.
  - right. exact (IH _ H).
Qed.

Lemma built_genre (prompt : string) (p s : option string) :
  genre (built prompt p s) = "general" \/ In (genre (built prompt p s)) genre_order.
Proof.
  unfold built.
  destruct (max_by_value _) as [g|] eqn:E.
  - right.
    assert (In g genre_order).
    { apply max_by_value_in in E.
      destruct (genre_scores_keys _ _ _ _ E) as [[]|H]. exact H. }
    destruct (first_label (length_keywords _) _), (first_label (tone_keywords _) _),
      p, s; exact H.
  - left.
    destruct (first_label (length_keywords _) _), (first_label (tone_keywords _) _),
      p, s; reflexivity.
Qed.

Lemma built_length (prompt : string) (p s : option string) :
  In (length (built prompt p s)) length_set.
Proof.
  unfold built.
  destruct (first_label (length_keywords _) _) as [l|] eqn:E.
  - apply first_label_in in E.
    destruct (max_by_value _), (first_label (tone_keywords _) _), p, s; exact E.
  - destruct (max_by_value _), (first_label (tone_keywords _) _), p, s;
      simpl; tauto.
Qed.

Lemma built_tone (prompt : string) (p s : option string) :
  In (tone (built prompt p s)) tone_set.
Proof.
  unfold built.
  destruct (first_label (tone_keywords _) _) as [t|] eqn:E.
  - apply first_label_in in E.
    assert (In t tone_set) by (simpl in *; tauto).
    destruct (max_by_value _), (first_label (length_keywords _) _), p, s;
      assumption.
  - destruct (max_by_value _), (first_label (length_keywords _) _), p, s;
      simpl; tauto.
Qed.

Lemma built_frame (prompt : string) (p s : option string) :
  style (built prompt p s) = "narrative" /\
  theme (built prompt p s) = "" /\
  original_prompt (built prompt p s) = prompt.
Proof.
  unfold built.
  destruct (max_by_value _), (first_label (length_keywords _) _),
    (first_label (tone_keywords _) _), p, s; repeat split.
Qed.

(* ================================================================== *)
(** ** The claims on every prompt: closed sets, frame, determinism *)

(** C1. For every input string [analyze_prompt] returns a record, and in
    it [genre] is one of the eleven genre names, [length] one of short,
    medium, long, epic, and [tone] one of the six tone names. *)
Theorem C1_enumerated_fields_closed (prompt : string) :
  exists c,
    analyze_prompt PromptAnalyzer_init prompt = Ok c /\
    In (genre c) genre_set /\ In (length c) length_set /\ In (tone c) tone_set.
Proof.
  destruct (analyze_prompt_returns prompt) as (p & s & _ & _ & H).
  exists (built prompt p s). split; [exact H|]. repeat split.
  - destruct (built_genre prompt p s) as [E|E].
    + rewrite E. simpl. tauto.
    + revert E. generalize (genre (built prompt p s)). intros g.
      simpl. tauto.
  - apply built_length.
  - apply built_tone.
Qed.

(** C9. For every input string the returned record has
    [style = "narrative"], [theme = ""] and [original_prompt] equal to the
    input as given. *)
Theorem C9_style_theme_prompt_frame (prompt : string) :
  exists c,
    analyze_prompt PromptAnalyzer_init prompt = Ok c /\
    style c = "narrative" /\ theme c = "" /\ original_prompt c = prompt.
Proof.
  destruct (analyze_prompt_returns prompt) as (p & s & _ & _ & H).
  exists (built prompt p s). split; [exact H|apply built_frame].
Qed.

Lemma update_last (l : list StoryConfig) (c : StoryConfig)
      (assign : StoryConfig -> StoryConfig) :
  Objects.update (List.length l) assign (l ++ [c])%list = (l ++ [assign c])%list.
Proof. induction l as [|x l IH]; simpl; [reflexivity|now rewrite IH]. Qed.

(** A call on a store returns the reference to a new last instance, which
    holds the record the analysis of the prompt gives with the analyzer of
    the store; nothing else in the store changes. *)
Ltac run_statements :=
  repeat (cbv beta iota zeta delta [Objects.analyzer Objects.configs];
          rewrite ?update_last).

Lemma analyze_prompt_on_store (st : Objects.store) (prompt : string)
      (c : StoryConfig) :
  analyze_prompt (Objects.analyzer st) prompt = Ok c ->
  Objects.analyze_prompt prompt st
  = (Ok (List.length (Objects.configs st)),
     Objects.mkStore (Objects.analyzer st) (Objects.configs st ++ [c])%list).
Proof.
  destruct st as [self heap].
  unfold analyze_prompt, Objects.analyze_prompt.
  unfold Objects.seq, Objects.new_StoryConfig, Objects.setattr,
    Objects.getattr_self, Objects.lift, Objects.ret, bind.
  run_statements.
  destruct (max_by_value _); run_statements;
    destruct (first_label (length_keywords self) _); run_statements;
    destruct (first_label (tone_keywords self) _); run_statements;
    (destruct (first_capture (character_patterns self) prompt) as [cp|ce];
     [|discriminate]);
    destruct cp; run_statements;
    (destruct (first_capture (setting_patterns self) prompt) as [cs|ce];
     [|discriminate]);
    destruct cs; run_statements;
    intros H; injection H as <-; reflexivity.
Qed.

(** C7. Two calls of [analyze_prompt] on the same string, one after the
    other on the same analyzer and whatever records exist before: each
    returns a new record, and after both calls the two records are equal in
    every field, equal to the analysis of the prompt; the analyzer and the
    earlier records are as they were.  No call leaves anything behind that
    the next one reads. *)
Theorem C7_two_calls_same_record
        (earlier : list StoryConfig) (prompt : string) :
  let st0 := Objects.mkStore PromptAnalyzer_init earlier in
  exists r1 r2 st1 st2 c1 c2,
    Objects.analyze_prompt prompt st0 = (Ok r1, st1) /\
    Objects.analyze_prompt prompt st1 = (Ok r2, st2) /\
    r1 <> r2 /\
    nth_error (Objects.configs st2) r1 = Some c1 /\
    nth_error (Objects.configs st2) r2 = Some c2 /\
    genre c1 = genre c2 /\ style c1 = style c2 /\ length c1 = length c2 /\
    tone c1 = tone c2 /\ protagonist c1 = protagonist c2 /\
    setting c1 = setting c2 /\ theme c1 = theme c2 /\
    original_prompt c1 = original_prompt c2 /\
    analyze_prompt PromptAnalyzer_init prompt = Ok c1 /\
    Objects.analyzer st2 = PromptAnalyzer_init /\
    forall r, r < List.length earlier ->
              nth_error (Objects.configs st2) r = nth_error earlier r.
Proof.
  intros st0.
  destruct (analyze_prompt_returns prompt) as (p & s & _ & _ & H).
  set (c := built prompt p s) in *.
  pose proof (analyze_prompt_on_store st0 prompt c H) as E1.
  cbn [Objects.analyzer Objects.configs st0] in E1.
  set (st1 := Objects.mkStore PromptAnalyzer_init (earlier ++ [c])%list) in *.
  pose proof (analyze_prompt_on_store st1 prompt c H) as E2.
  cbn [Objects.analyzer Objects.configs st1] in E2.
  exists (List.length earlier), (List.length (earlier ++ [c])%list), st1,
    (Objects.mkStore PromptAnalyzer_init ((earlier ++ [c]) ++ [c])%list), c, c.
  split; [exact E1|]. split; [exact E2|].
  cbn [Objects.analyzer Objects.configs].
  rewrite length_app. cbn [List.length].
  split; [lia|].
  split.
  { rewrite nth_error_app1 by (rewrite length_app; simpl; lia).
    rewrite nth_error_app2 by lia. now rewrite Nat.sub_diag. }
  split.
  { rewrite nth_error_app2 by (rewrite length_app; simpl; lia).
    rewrite length_app. cbn [List.length].
    now rewrite Nat.sub_diag. }
  repeat (split; [reflexivity|]).
  split; [exact H|]. split; [reflexivity|].
  intros r Hr.
  rewrite nth_error_app1 by (rewrite length_app; simpl; lia).
  now rewrite nth_error_app1 by lia.
Qed.

(* ================================================================== *)
(** ** The claims on given prompts *)

(** C5. On the empty string [analyze_prompt] returns, and the record is
    the one of the defaults: general, medium, neutral, no protagonist, no
    setting. *)
Theorem C5_empty_prompt_defaults :
  analyze_prompt PromptAnalyzer_init "" =
  Ok (mkStoryConfig "general" "narrative" "medium" "neutral" "" "" "" "").
Proof. vm_compute. reflexivity. Qed.

(** C6. On "an epicurean feast" the length is epic: the keyword "epic" is
    found inside "epicurean" by substring containment, although no word of
    the prompt is "epic". *)
Theorem C6_epicurean_is_epic :
  exists c,
    analyze_prompt PromptAnalyzer_init "an epicurean feast" = Ok c /\
    length c = "epic" /\
    PyStr.contains "epic" "epicurean" = true /\
    ~ In "epic" (PyStr.split " " "an epicurean feast").
Proof.
  eexists. split; [vm_compute; reflexivity|].
  split; [reflexivity|]. split; [reflexivity|].
  vm_compute. intros [H|[H|[H|[]]]]; discriminate.
Qed.

(** Against C3 as stated: on the wizard prompt the protagonist is not
    "a young wizard". *)
Lemma C3_counterexample :
  ~ (exists c,
       analyze_prompt PromptAnalyzer_init wizard_prompt = Ok c /\
       genre c = "fantasy" /\ protagonist c = "a young wizard").
Proof.
  intros (c & H & _ & Hp). vm_compute in H.
  inversion H; subst c. discriminate Hp.
Qed.

(** C3, amended. On the wizard prompt the genre is fantasy and the
    protagonist is "young wizard": the first character pattern, "about
    (a |an )?X who", matches at "about", its optional article takes "a "
    and group 1 holds what stands between the article and " who". *)
Theorem C3_wizard_prompt :
  exists c,
    analyze_prompt PromptAnalyzer_init wizard_prompt = Ok c /\
    genre c = "fantasy" /\ protagonist c = "young wizard" /\
    hd_error (character_patterns PromptAnalyzer_init) = Some pat_about /\
    search re_IGNORECASE pat_about wizard_prompt
    = Some (Match 16 24 (Some "young wizard")).
Proof.
  eexists. split; [vm_compute; reflexivity|].
  repeat split; vm_compute; reflexivity.
Qed.

(** Against C4 as stated: on the hospital prompt the setting is not
    "an abandoned hospital". *)
Lemma C4_counterexample :
  ~ (exists c,
       analyze_prompt PromptAnalyzer_init hospital_prompt = Ok c /\
       length c = "short" /\ genre c = "horror" /\
       setting c = "an abandoned hospital").
Proof.
  intros (c & H & _ & _ & Hs). vm_compute in H.
  inversion H; subst c. discriminate Hs.
Qed.

(** C4, amended. On the hospital prompt the length is short, the genre is
    horror and the setting is "an": the first setting pattern, "set in X",
    matches, and its lazy group 1 ends before the first whitespace. *)
Theorem C4_hospital_prompt :
  exists c,
    analyze_prompt PromptAnalyzer_init hospital_prompt = Ok c /\
    length c = "short" /\ genre c = "horror" /\ setting c = "an" /\
    hd_error (setting_patterns PromptAnalyzer_init) = Some pat_set_in /\
    search re_IGNORECASE pat_set_in hospital_prompt
    = Some (Match 27 10 (Some "an")).
Proof.
  eexists. split; [vm_compute; reflexivity|].
  repeat split; vm_compute; reflexivity.
Qed.

(* ================================================================== *)
(** ** Genre scoring: the first maximum in table order wins *)

Lemma dict_set_fresh {V : Type} (k : string) (v : V) (d : dict V) :
  ~ In k (keys d) -> dict_set k v d = (d ++ [(k, v)])%list.
Proof.
  induction d as [|[k' v'] t IH]; simpl; intros H; [reflexivity|].
  destruct (String.eqb k k') eqn:E.
  - apply String.eqb_eq in E. subst. exfalso. apply H. now left.
  - rewrite IH; [reflexivity|]. intros H'. apply H. now right.
Qed.

Lemma genre_scores_of_fold (prompt_lower : string) (table : dict (list string)) :
  forall acc,
    NoDup (keys table) ->
    (forall k, In k (keys table) -> ~ In k (keys acc)) ->
    fold_left
      (fun genre_scores (item : string * list string) =>
         let (genre, keywords) := item in
         let score := keyword_score keywords prompt_lower in
         if 0 <? score then dict_set genre score genre_scores else genre_scores)
      table acc
    = (acc ++ scored table prompt_lower)%list.
Proof.
  induction table as [|[g kws] t IH]; intros acc ND Hfresh.
  - simpl. now rewrite app_nil_r.
  - simpl in ND. inversion ND as [|? ? Hg NDt]; subst.
    cbn [fold_left]. unfold scored. cbn [map filter fst snd].
    destruct (0 <? keyword_score kws prompt_lower) eqn:E.
    + rewrite dict_set_fresh by (apply Hfresh; now left).
      rewrite IH; trivial.
      * unfold scored. now rewrite <- app_assoc.
      * intros k Hk Hin. unfold keys in Hin. rewrite map_app in Hin.
        apply in_app_or in Hin. destruct Hin as [Hin|[Hin|[]]].
        -- apply (Hfresh k); [now right|exact Hin].
        -- simpl in Hin. subst k. exact (Hg Hk).
    + apply IH; trivial. intros k Hk. apply Hfresh. now right.
Qed.

Lemma genre_scores_of_scored (table : dict (list string)) (prompt_lower : string) :
  NoDup (keys table) ->
  genre_scores_of table prompt_lower = scored table prompt_lower.
Proof.
  intros ND. unfold genre_scores_of.
  rewrite genre_scores_of_fold; auto.
Qed.

(** The loop of [max] either keeps the running best, nothing being
    greater, or ends on the first entry whose value is the greatest. *)
Lemma max_loop_spec (d : dict nat) :
  forall best best_val,
    (max_loop best best_val d = best /\ Forall (fun kv => snd kv <= best_val) d)
    \/ (exists pre v post,
          d = (pre ++ (max_loop best best_val d, v) :: post)%list /\
          best_val < v /\
          Forall (fun kv => snd kv < v) pre /\
          Forall (fun kv => snd kv <= v) post).
Proof.
  induction d as [|[k v] t IH]; intros best best_val; simpl.
  - left. split; [reflexivity|constructor].
  - destruct (best_val <? v) eqn:E.
    + apply Nat.ltb_lt in E. right.
      destruct (IH k v) as [[Hr Hall]|(pre & v' & post & Hd & Hlt & Hpre & Hpost)].
      * exists [], v, t. rewrite Hr. repeat split; auto.
      * exists ((k, v) :: pre), v', post. repeat split; auto.
        -- simpl. now rewrite <- Hd.
        -- lia.
    + apply Nat.ltb_ge in E.
      destruct (IH best best_val)
        as [[Hr Hall]|(pre & v' & post & Hd & Hlt & Hpre & Hpost)].
      * left. split; [exact Hr|]. constructor; auto.
      * right. exists ((k, v) :: pre), v', post. repeat split; auto.
        -- simpl. now rewrite <- Hd.
        -- constructor; auto. simpl. lia.
Qed.

Lemma max_by_value_spec (d : dict nat) (g : string) :
  max_by_value d = Some g ->
  exists pre v post,
    d = (pre ++ (g, v) :: post)%list /\
    Forall (fun kv => snd kv < v) pre /\
    Forall (fun kv => snd kv <= v) post.
Proof.
  destruct d as [|[k v] t]; simpl; intros H; [discriminate|].
  inversion H as [Hg]. clear H.
  destruct (max_loop_spec t k v)
    as [[Hr Hall]|(pre & v' & post & Hd & Hlt & Hpre & Hpost)].
  - exists [], v, t. rewrite Hr. repeat split; auto.
  - exists ((k, v) :: pre), v', post. repeat split; auto.
    simpl. now rewrite <- Hd.
Qed.

Lemma filter_split {A : Type} (f : A -> bool) (l : list A) :
  forall pre x post,
    filter f l = (pre ++ x :: post)%list ->
    exists lpre lpost,
      l = (lpre ++ x :: lpost)%list /\
      filter f lpre = pre /\ filter f lpost = post.
Proof.
  induction l as [|a l IH]; intros pre x post H; simpl in H.
  - destruct pre; discriminate.
  - destruct (f a) eqn:E.
    + destruct pre as [|b pre]; simpl in H; injection H as Ha Ht.
      * subst x. exists [], l. subst post. auto.
      * subst b. destruct (IH _ _ _ Ht) as (lpre & lpost & -> & Hp & Hq).
        exists (a :: lpre), lpost. simpl. rewrite E, Hp. auto.
    + destruct (IH _ _ _ H) as (lpre & lpost & -> & Hp & Hq).
      exists (a :: lpre), lpost. simpl. rewrite E. auto.
Qed.

Lemma dict_get_in_nodup {V : Type} (d : dict V) (k : string) (v : V) :
  NoDup (keys d) -> In (k, v) d -> dict_get k d = Some v.
Proof.
  induction d as [|[k' v'] t IH]; simpl; intros ND H; [contradiction|].
  inversion ND as [|? ? Hk NDt]; subst.
  destruct H as [H|H].
  - inversion H; subst. now rewrite String.eqb_refl.
  - destruct (String.eqb k k') eqn:E.
    + apply String.eqb_eq in E. subst k'. exfalso. apply Hk.
      change k with (fst (k, v)). now apply in_map.
    + auto.
Qed.

Lemma init_genre_keys_nodup : NoDup (keys (genre_keywords PromptAnalyzer_init)).
Proof.
  simpl. repeat (constructor; [simpl; intuition discriminate|]). constructor.
Qed.

(** The genre of the record: general without a positive score, else the
    first entry of the table whose score is the greatest. *)
Lemma built_genre_first_max (prompt : string) (p s : option string) :
  let table := genre_keywords PromptAnalyzer_init in
  let sc := fun kws => keyword_score kws (PyStr.lower prompt) in
  (genre (built prompt p s) = "general" /\
   Forall (fun item => sc (snd item) = 0) table)
  \/ (exists pre kws post,
        table = (pre ++ (genre (built prompt p s), kws) :: post)%list /\
        0 < sc kws /\
        Forall (fun item => sc (snd item) < sc kws) pre /\
        Forall (fun item => sc (snd item) <= sc kws) post).
Proof.
  intros table sc.
  assert (ND : NoDup (keys table)) by exact init_genre_keys_nodup.
  assert (G : genre (built prompt p s) =
              match max_by_value (genre_scores_of table (PyStr.lower prompt)) with
              | Some g => g
              | None => "general"
              end).
  { unfold built. fold table.
    destruct (max_by_value _), (first_label (length_keywords _) _),
      (first_label (tone_keywords _) _), p, s; reflexivity. }
  rewrite G. clear G.
  rewrite (genre_scores_of_scored table _ ND).
  destruct (max_by_value (scored table (PyStr.lower prompt))) as [g|] eqn:E.
  - right.
    destruct (max_by_value_spec _ _ E) as (dpre & v & dpost & Hd & Hpre & Hpost).
    unfold scored in Hd.
    destruct (filter_split _ _ _ _ _ Hd) as (lpre & lpost & Hm & Hfp & Hfq).
    apply map_eq_app in Hm.
    destruct Hm as (tpre & trest & Ht & Hmp & Hmr).
    destruct trest as [|[g' kws] tpost]; [discriminate|].
    simpl in Hmr. inversion Hmr as [[Hg Hv Hmq]]. subst g'.
    assert (Hpos : 0 < v).
    { assert (In (g, v) (filter (fun kv => 0 <? snd kv)
                (map (fun item : string * list string =>
                        (fst item, keyword_score (snd item) (PyStr.lower prompt)))
                     table))).
      { rewrite Hd. apply in_or_app. right. now left. }
      apply filter_In in H. destruct H as [_ H]. now apply Nat.ltb_lt in H. }
    exists tpre, kws, tpost. fold (sc kws) in Hv. rewrite Hv.
    split; [exact Ht|]. split; [exact Hpos|]. split.
    + apply Forall_forall. intros item Hin.
      destruct (0 <? sc (snd item)) eqn:Ez.
      * rewrite Forall_forall in Hpre.
        apply (Hpre (fst item, sc (snd item))).
        rewrite <- Hfp, <- Hmp. apply filter_In. split; [|exact Ez].
        apply (in_map (fun item : string * list string =>
                         (fst item, keyword_score (snd item) (PyStr.lower prompt)))
                      _ _ Hin).
      * apply Nat.ltb_ge in Ez. lia.
    + apply Forall_forall. intros item Hin.
      destruct (0 <? sc (snd item)) eqn:Ez.
      * rewrite Forall_forall in Hpost.
        apply (Hpost (fst item, sc (snd item))).
        rewrite <- Hfq, <- Hmq. apply filter_In. split; [|exact Ez].
        apply (in_map (fun item : string * list string =>
                         (fst item, keyword_score (snd item) (PyStr.lower prompt)))
                      _ _ Hin).
      * apply Nat.ltb_ge in Ez. lia.
  - left. split; [reflexivity|].
    apply Forall_forall. intros item Hin.
    destruct (0 <? sc (snd item)) eqn:Ez; [|apply Nat.ltb_ge in Ez; lia].
    exfalso.
    assert (In (fst item, sc (snd item)) (scored table (PyStr.lower prompt))).
    { unfold scored. apply filter_In. split; [|exact Ez].
      apply (in_map (fun item : string * list string =>
                       (fst item, keyword_score (snd item) (PyStr.lower prompt)))
                    _ _ Hin). }
    destruct (scored table (PyStr.lower prompt)) as [|[k v] t];
      [contradiction|discriminate].
Qed.

Lemma in_keys_entry {V : Type} (d : dict V) (k : string) :
  In k (keys d) -> exists v, In (k, v) d.
Proof.
  unfold keys. rewrite in_map_iff. intros ([k' v] & Hk & Hin).
  simpl in Hk. subst k'. eauto.
Qed.

Lemma genre_score_entry (prompt g : string) (kws : list string) :
  In (g, kws) (genre_keywords PromptAnalyzer_init) ->
  genre_score g prompt = keyword_score kws (PyStr.lower prompt).
Proof.
  intros H. unfold genre_score.
  now rewrite (dict_get_in_nodup _ _ _ init_genre_keys_nodup H).
Qed.

(** C2. When two different genres share the greatest keyword score of a
    prompt and that score is positive, the genre of the returned record
    attains that score and every genre declared before it in the table
    (fantasy, sci-fi, mystery, horror, romance, adventure, thriller,
    historical, comedy, contemporary) scores strictly less: the first of
    the tied genres in declared order wins. *)
Theorem C2_tie_goes_to_first_declared (prompt g1 g2 : string) :
  In g1 genre_order -> In g2 genre_order -> g1 <> g2 ->
  genre_score g1 prompt = genre_score g2 prompt ->
  0 < genre_score g1 prompt ->
  (forall g, In g genre_order -> genre_score g prompt <= genre_score g1 prompt) ->
  exists c before after,
    analyze_prompt PromptAnalyzer_init prompt = Ok c /\
    genre_order = (before ++ genre c :: after)%list /\
    genre_score (genre c) prompt = genre_score g1 prompt /\
    forall g, In g before -> genre_score g prompt < genre_score g1 prompt.
Proof.
  intros Hg1 _ _ _ Hpos Hmax.
  destruct (analyze_prompt_returns prompt) as (p & s & _ & _ & H).
  destruct (in_keys_entry (genre_keywords PromptAnalyzer_init) g1 Hg1)
    as [kws1 Hin1].
  pose proof (genre_score_entry prompt _ _ Hin1) as Hs1.
  destruct (built_genre_first_max prompt p s)
    as [[_ Hzero]|(pre & kws & post & Ht & Hp & Hpre & Hpost)].
  - exfalso. rewrite Forall_forall in Hzero.
    specialize (Hzero _ Hin1). simpl in Hzero. lia.
  - set (g := genre (built prompt p s)) in *.
    assert (Hin : In (g, kws) (genre_keywords PromptAnalyzer_init)).
    { rewrite Ht. apply in_or_app. right. now left. }
    pose proof (genre_score_entry prompt _ _ Hin) as Hs.
    assert (Hord : genre_order = (keys pre ++ g :: keys post)%list).
    { change genre_order with (keys (genre_keywords PromptAnalyzer_init)).
      rewrite Ht. unfold keys. now rewrite map_app. }
    assert (Hle : genre_score g prompt <= genre_score g1 prompt).
    { apply Hmax. rewrite Hord. apply in_or_app. right. now left. }
    assert (Hge : genre_score g1 prompt <= genre_score g prompt).
    { rewrite Hs, Hs1. rewrite Ht in Hin1.
      apply in_app_or in Hin1. destruct Hin1 as [Hi|[Hi|Hi]].
      - rewrite Forall_forall in Hpre. specialize (Hpre _ Hi). simpl in Hpre. lia.
      - inversion Hi; subst. lia.
      - rewrite Forall_forall in Hpost. exact (Hpost _ Hi). }
    exists (built prompt p s), (keys pre), (keys post).
    split; [exact H|]. split; [exact Hord|]. split; [fold g; lia|].
    intros g' Hg'. destruct (in_keys_entry pre g' Hg') as [kws' Hin'].
    assert (Hin'' : In (g', kws') (genre_keywords PromptAnalyzer_init)).
    { rewrite Ht. apply in_or_app. now left. }
    rewrite (genre_score_entry prompt _ _ Hin'').
    rewrite Forall_forall in Hpre. specialize (Hpre _ Hin'). simpl in Hpre.
    rewrite <- Hs in Hpre. lia.
Qed.

Lemma C2_tie_witness :
  genre_score "fantasy" tie_prompt = genre_score "sci-fi" tie_prompt /\
  exists c before after,
    analyze_prompt PromptAnalyzer_init tie_prompt = Ok c /\
    genre_order = (before ++ genre c :: after)%list /\
    genre_score (genre c) tie_prompt = genre_score "fantasy" tie_prompt /\
    forall g, In g before -> genre_score g tie_prompt < genre_score "fantasy" tie_prompt.
Proof.
  split; [reflexivity|].
  apply (C2_tie_goes_to_first_declared tie_prompt "fantasy" "sci-fi").
  - simpl; tauto.
  - simpl; tauto.
  - discriminate.
  - reflexivity.
  - vm_compute. lia.
  - intros g Hg. simpl in Hg.
    repeat (destruct Hg as [<-|Hg]; [vm_compute; lia|]). contradiction.
Defined.

(* ================================================================== *)
(** ** When the matcher fails *)

Lemma is_suffix_refl (s : string) : is_suffix s s.
Proof. now exists "". Qed.

Lemma is_suffix_tail (c : ascii) (s' s : string) :
  is_suffix s' s -> is_suffix s' (String c s).
Proof. intros [p ->]. now exists (String c p). Qed.

Lemma is_suffix_trans (a b c : string) :
  is_suffix a b -> is_suffix b c -> is_suffix a c.
Proof.
  intros [p ->] [q ->]. exists (q ++ p).
  induction q as [|x q IH]; simpl; [reflexivity|now rewrite IH].
Qed.

Section Failure.
Variable fl : flags.

Lemma lit_suffix (l : string) :
  forall st st', lit fl l st = Some st' -> is_suffix (rest st') (rest st).
Proof.
  induction l as [|p l IH]; simpl; intros st st' H.
  - inversion H. apply is_suffix_refl.
  - destruct (rest st) as [|c s'] eqn:E; [discriminate|].
    destruct (chr_eq fl p c); [|discriminate].
    apply is_suffix_tail. exact (IH _ _ H).
Qed.

Lemma star_none (greedy : bool) (cs : cset) (k : mstate -> option mstate) :
  forall s,
    (forall n l g s', is_suffix s' s -> k (MState n l s' g) = None) ->
    forall n l g, star fl greedy cs k n l g s = None.
Proof.
  induction s as [|c s IH]; intros Hk n l g; simpl.
  - rewrite (Hk n l g "" (is_suffix_refl _)). now destruct greedy.
  - rewrite (Hk n l g _ (is_suffix_refl _)).
    rewrite IH by (intros; apply Hk; now apply is_suffix_tail).
    destruct greedy, (in_cset fl cs c); reflexivity.
Qed.

(** A pattern fails where its continuation refuses every position from
    the cursor on. *)
Lemma rmatch_none (r : regex) :
  forall st k,
    (forall st', is_suffix (rest st') (rest st) -> k st' = None) ->
    rmatch fl r st k = None.
Proof.
  induction r as [|l|cs|greedy cs|a IHa b IHb|a IHa b IHb|a IHa|a IHa| |a IHa];
    intros st k Hk; simpl.
  - apply Hk, is_suffix_refl.
  - destruct (lit fl l st) as [st1|] eqn:E; [|reflexivity].
    apply Hk. exact (lit_suffix _ _ _ E).
  - destruct (rest st) as [|c s'] eqn:E; [reflexivity|].
    destruct (in_cset fl cs c); [|reflexivity].
    apply Hk. simpl. apply is_suffix_tail, is_suffix_refl.
  - apply star_none. intros. now apply Hk.
  - apply IHa. intros st1 H1. apply IHb. intros st2 H2.
    apply Hk. exact (is_suffix_trans _ _ _ H2 H1).
  - rewrite (IHa _ _ Hk). exact (IHb _ _ Hk).
  - rewrite (IHa _ _ Hk). apply Hk, is_suffix_refl.
  - apply IHa. intros st1 H1. apply Hk. exact H1.
  - rewrite (Hk st (is_suffix_refl _)). now destruct (at_bol fl st).
  - rewrite (Hk st (is_suffix_refl _)). now destruct (rmatch fl a st Some).
Qed.

Lemma lit_clash_none (l : string) :
  forall u w n lc g,
    lit_clash fl l u = true -> lit fl l (MState n lc (u ++ w) g) = None.
Proof.
  induction l as [|p l IH]; intros u w n lc g Hc; simpl in *; [discriminate|].
  destruct u as [|c u]; [discriminate|].
  simpl. destruct (chr_eq fl p c); [|reflexivity].
  simpl in Hc. unfold advance. simpl. apply IH, Hc.
Qed.

Lemma search_clash_none (l : string) (q : regex) (w : string) :
  (forall off lc, search_from fl (RSeq (RLit l) q) off lc w = None) ->
  forall u off lc,
    clash_everywhere fl l u = true ->
    search_from fl (RSeq (RLit l) q) off lc (u ++ w) = None.
Proof.
  intros Hw. induction u as [|c u IH]; intros off lc Hc.
  - apply Hw.
  - simpl in Hc. apply andb_true_iff in Hc. destruct Hc as [Hc Hu].
    pose proof (lit_clash_none l (String c u) w 0 lc None Hc) as E.
    change (String c u ++ w) with (String c (u ++ w)) in *.
    cbn [search_from]. unfold match_here. cbn [rmatch].
    rewrite E. apply IH, Hu.
Qed.

(** Where a search finds nothing, no attempt succeeds. *)
Lemma search_none_attempt (r : regex) :
  forall i s off lc,
    search_from fl r off lc s = None -> attempt_from fl r off lc i s = None.
Proof.
  induction i as [|i IH]; intros s off lc H.
  - destruct s; simpl in *; destruct (match_here fl r off lc _);
      first [discriminate | reflexivity].
  - destruct s as [|c s]; [reflexivity|].
    simpl in *. destruct (match_here fl r off lc (String c s));
      [discriminate|]. now apply IH.
Qed.

(** The same behind any text: an attempt at or after the end of [pre]
    sees only what follows [pre] and the character before it. *)
Lemma search_none_attempt_behind (r : regex) (s : string) :
  (forall off lc, search_from fl r off lc s = None) ->
  forall pre i off lc,
    String.length pre <= i -> attempt_from fl r off lc i (pre ++ s) = None.
Proof.
  intros Hs. induction pre as [|c pre IH]; intros i off lc Hi.
  - apply search_none_attempt, Hs.
  - destruct i as [|i]; [simpl in Hi; lia|].
    simpl. apply IH. simpl in Hi. lia.
Qed.

End Failure.

(** Only a blank matches a blank of a pattern, and a blank is a
    terminator. *)
Lemma blank_needs_terminator (c : ascii) :
  in_cset re_IGNORECASE terminator c = false ->
  chr_eq re_IGNORECASE " " c = false.
Proof.
  destruct c as [[] [] [] [] [] [] [] []]; vm_compute; intros H;
    first [reflexivity | discriminate H].
Qed.

Lemma no_terminator_suffix (s' s : string) :
  is_suffix s' s -> no_terminator s = true -> no_terminator s' = true.
Proof.
  intros [p ->]. induction p as [|c p IH]; simpl; [trivial|].
  intros H. apply andb_true_iff in H. tauto.
Qed.

Lemma no_terminator_single (s : string) :
  no_terminator s = true -> single_token s = true.
Proof.
  destruct s as [|c s]; simpl; [trivial|].
  intros H. apply andb_true_iff in H. tauto.
Qed.

Lemma single_token_suffix (s' s : string) :
  is_suffix s' s -> single_token s = true -> single_token s' = true.
Proof.
  intros [p ->]. destruct p as [|c p]; simpl; [trivial|].
  intros H. apply no_terminator_single.
  exact (no_terminator_suffix _ _ (ex_intro _ p eq_refl) H).
Qed.

Lemma lit_blank_none (l : string) :
  forall st,
    has_blank l = true -> no_terminator (rest st) = true ->
    lit re_IGNORECASE l st = None.
Proof.
  induction l as [|p l IH]; intros st Hb Hn; simpl in *; [discriminate|].
  destruct (rest st) as [|c s'] eqn:E; [reflexivity|].
  simpl in Hn. apply andb_true_iff in Hn. destruct Hn as [Hc Hs].
  apply negb_true_iff in Hc.
  destruct (chr_eq re_IGNORECASE p c) eqn:Ep; [|reflexivity].
  apply IH; [|exact Hs].
  apply orb_true_iff in Hb. destruct Hb as [Hb|Hb]; [|exact Hb].
  apply Ascii.eqb_eq in Hb. subst p.
  rewrite (blank_needs_terminator c Hc) in Ep. discriminate.
Qed.

Lemma lit_inner_blank_none (l : string) (st : mstate) :
  has_inner_blank l = true -> single_token (rest st) = true ->
  lit re_IGNORECASE l st = None.
Proof.
  destruct l as [|p l]; simpl; intros Hb Hn; [discriminate|].
  destruct (rest st) as [|c s'] eqn:E; [reflexivity|].
  destruct (chr_eq re_IGNORECASE p c); [|reflexivity].
  apply lit_blank_none; assumption.
Qed.

(** Inside a token no introducer can start. *)
Lemma search_token_none (l : string) (q : regex) :
  has_inner_blank l = true ->
  forall w off lc,
    single_token w = true ->
    search_from re_IGNORECASE (RSeq (RLit l) q) off lc w = None.
Proof.
  intros Hb. induction w as [|c w IH]; intros off lc Hw;
    cbn [search_from]; unfold match_here; cbn [rmatch].
  - now rewrite (lit_inner_blank_none l (MState 0 lc "" None) Hb Hw).
  - rewrite (lit_inner_blank_none l (MState 0 lc (String c w) None) Hb Hw).
    apply IH. exact (no_terminator_single _ Hw).
Qed.

(** Another pattern's introducer, then a token: no match. *)
Lemma foreign_intro_none (l : string) (q : regex) (u w : string) :
  clash_everywhere re_IGNORECASE l u = true ->
  has_inner_blank l = true ->
  single_token w = true ->
  forall off lc,
    search_from re_IGNORECASE (RSeq (RLit l) q) off lc (u ++ w) = None.
Proof.
  intros Hc Hb Hw off lc.
  apply search_clash_none; [|exact Hc].
  intros. now apply search_token_none.
Qed.

(** [(.+?)[\.,\s]] on a token: the lazy group finds no terminator. *)
Lemma capture_terminator_none (st : mstate) (k : mstate -> option mstate) :
  single_token (rest st) = true ->
  rmatch re_IGNORECASE (RSeq capture_lazy (RSet terminator)) st k = None.
Proof.
  intros Hw. unfold capture_lazy, RPlus. cbn [rmatch].
  destruct (rest st) as [|c s'] eqn:E; [reflexivity|].
  destruct (in_cset re_IGNORECASE CDot c); [|reflexivity].
  cbn [advance consumed last rest group1].
  apply star_none. intros n l g s'' Hs. cbn [set_group rest].
  pose proof (no_terminator_suffix _ _ Hs Hw) as Hn.
  destruct s'' as [|c' t]; [reflexivity|].
  cbn [no_terminator] in Hn. apply andb_true_iff in Hn. destruct Hn as [Hc _].
  apply negb_true_iff in Hc. now rewrite Hc.
Qed.

(** The same behind an optional word. *)
Lemma optional_capture_terminator_none
      (opt : regex) (st : mstate) (k : mstate -> option mstate) :
  single_token (rest st) = true ->
  rmatch re_IGNORECASE (RSeq opt (RSeq capture_lazy (RSet terminator))) st k
  = None.
Proof.
  intros Hw. cbn [rmatch]. apply rmatch_none. intros st' Hs.
  apply capture_terminator_none. exact (single_token_suffix _ _ Hs Hw).
Qed.

(** A pattern's own introducer, then a token: the introducer matches and
    what follows it fails; no later position matches either. *)
Lemma own_intro_none (l : string) (q : regex) (c0 : ascii) (u w : string) :
  (forall lc, exists st1,
      lit re_IGNORECASE l (MState 0 lc (String c0 u ++ w) None) = Some st1 /\
      rest st1 = w) ->
  (forall st k, single_token (rest st) = true ->
                rmatch re_IGNORECASE q st k = None) ->
  clash_everywhere re_IGNORECASE l u = true ->
  has_inner_blank l = true ->
  single_token w = true ->
  forall off lc,
    search_from re_IGNORECASE (RSeq (RLit l) q) off lc (String c0 u ++ w) = None.
Proof.
  intros Hlit Hq Hc Hb Hw off lc.
  change (String c0 u ++ w) with (String c0 (u ++ w)).
  cbn [search_from]. unfold match_here. cbn [rmatch].
  destruct (Hlit lc) as (st1 & H1 & Hr).
  change (String c0 (u ++ w)) with (String c0 u ++ w) at 1.
  rewrite H1. rewrite Hq by (now rewrite Hr).
  now apply foreign_intro_none.
Qed.

(* ================================================================== *)
(** ** An introducer and one token at the end of the prompt *)

Lemma first_capture_none (patterns : list regex) (prompt : string) :
  Forall (fun r => search re_IGNORECASE r prompt = None) patterns ->
  first_capture patterns prompt = Ok None.
Proof.
  induction 1 as [|r rs Hr _ IH]; simpl; [reflexivity|].
  now rewrite Hr.
Qed.

Lemma built_no_protagonist (prompt : string) (s : option string) :
  protagonist (built prompt None s) = "".
Proof.
  unfold built.
  destruct (max_by_value _), (first_label (length_keywords _) _),
    (first_label (tone_keywords _) _), s; reflexivity.
Qed.

Lemma built_no_setting (prompt : string) (p : option string) :
  setting (built prompt p None) = "".
Proof.
  unfold built.
  destruct (max_by_value _), (first_label (length_keywords _) _),
    (first_label (tone_keywords _) _), p; reflexivity.
Qed.

Ltac open_pattern :=
  unfold pat_about, pat_protagonist, pat_main_character, pat_story_of,
    pat_set_in, pat_takes_place_in, pat_located_in, pat_world_of;
  cbn [RCat].

Ltac foreign_intro :=
  apply foreign_intro_none; [vm_compute; reflexivity | reflexivity | assumption].

Ltac own_intro :=
  apply own_intro_none;
  [ intros ?; eexists; split; reflexivity
  | intros ? ? ?;
    first [ now apply capture_terminator_none
          | now apply optional_capture_terminator_none ]
  | vm_compute; reflexivity
  | reflexivity
  | assumption ].

Ltac intro_none := intros ? ?; open_pattern; first [foreign_intro | own_intro].

(** Behind a protagonist introducer and a token, no character pattern
    matches at any position. *)
Lemma character_patterns_none (w : string) :
  single_token w = true ->
  forall intro pat,
    In (intro, pat) character_introducers ->
    Forall (fun r => forall off lc,
              search_from re_IGNORECASE r off lc (intro ++ w) = None)
           (character_patterns PromptAnalyzer_init).
Proof.
  intros Hw intro pat Hin. simpl in Hin.
  destruct Hin as [E|[E|[E|[]]]]; inversion E; subst intro pat; clear E;
    cbn [character_patterns PromptAnalyzer_init];
    repeat (apply Forall_cons; [intro_none|]); apply Forall_nil.
Qed.

(** Behind a setting introducer and a token, no setting pattern matches
    at any position. *)
Lemma setting_patterns_none (w : string) :
  single_token w = true ->
  forall intro pat,
    In (intro, pat) setting_introducers ->
    Forall (fun r => forall off lc,
              search_from re_IGNORECASE r off lc (intro ++ w) = None)
           (setting_patterns PromptAnalyzer_init).
Proof.
  intros Hw intro pat Hin. simpl in Hin.
  destruct Hin as [E|[E|[E|[E|[]]]]]; inversion E; subst intro pat; clear E;
    cbn [setting_patterns PromptAnalyzer_init];
    repeat (apply Forall_cons; [intro_none|]); apply Forall_nil.
Qed.

Lemma Forall_search_none (patterns : list regex) (prompt : string) :
  Forall (fun r => forall off lc,
            search_from re_IGNORECASE r off lc prompt = None) patterns ->
  Forall (fun r => search re_IGNORECASE r prompt = None) patterns.
Proof.
  intros H. eapply Forall_impl; [|exact H]. intros r Hr. apply Hr.
Qed.

(** Against C8 as stated: on "story of a dragon" the "story of" pattern
    does match, and the protagonist is not empty. *)
Lemma C8_counterexample :
  search re_IGNORECASE pat_story_of "story of a dragon" <> None /\
  ~ (exists c,
       analyze_prompt PromptAnalyzer_init "story of a dragon" = Ok c /\
       protagonist c = "").
Proof.
  split.
  - vm_compute. discriminate.
  - intros (c & H & Hp). vm_compute in H. inversion H; subst c.
    discriminate Hp.
Qed.

(** What the code returns there: the protagonist is "a". *)
Lemma story_of_a_dragon :
  search re_IGNORECASE pat_story_of "story of a dragon"
  = Some (Match 0 11 (Some "a")) /\
  exists c,
    analyze_prompt PromptAnalyzer_init "story of a dragon" = Ok c /\
    protagonist c = "a".
Proof.
  split; [vm_compute; reflexivity|].
  eexists. split; vm_compute; reflexivity.
Qed.

(** C8, amended. Let a prompt be one of the introducers "protagonist ",
    "main character ", "story of " (or "set in ", "takes place in ",
    "located in ", "world of ") followed by a remainder that has no period,
    comma or whitespace after its first character, that is one token running
    to the end of the string.  Then, whatever text stands before the
    introducer, its pattern has no match that starts at the introducer or
    later; and on the prompt that begins with the introducer no pattern of
    the list matches and [analyze_prompt] returns [protagonist = ""] (or
    [setting = ""]). *)
Theorem C8_token_at_end_not_captured (w : string) :
  single_token w = true ->
  (forall intro pat,
      In (intro, pat) character_introducers ->
      (forall pre i,
          String.length pre <= i ->
          attempt_at re_IGNORECASE pat i (pre ++ intro ++ w) = None) /\
      search re_IGNORECASE pat (intro ++ w) = None /\
      (exists c,
         analyze_prompt PromptAnalyzer_init (intro ++ w) = Ok c /\
         protagonist c = "") /\
      Forall (fun r => search re_IGNORECASE r (intro ++ w) = None)
             (character_patterns PromptAnalyzer_init))
  /\
  (forall intro pat,
      In (intro, pat) setting_introducers ->
      (forall pre i,
          String.length pre <= i ->
          attempt_at re_IGNORECASE pat i (pre ++ intro ++ w) = None) /\
      search re_IGNORECASE pat (intro ++ w) = None /\
      (exists c,
         analyze_prompt PromptAnalyzer_init (intro ++ w) = Ok c /\
         setting c = "") /\
      Forall (fun r => search re_IGNORECASE r (intro ++ w) = None)
             (setting_patterns PromptAnalyzer_init)).
Proof.
  intros Hw. split; intros intro pat Hin.
  - pose proof (character_patterns_none w Hw intro pat Hin) as Hall.
    assert (Hpat : forall off lc,
               search_from re_IGNORECASE pat off lc (intro ++ w) = None).
    { rewrite Forall_forall in Hall. apply Hall.
      simpl in Hin. destruct Hin as [E|[E|[E|[]]]]; inversion E; subst;
        simpl; tauto. }
    split; [intros pre i Hi;
            exact (search_none_attempt_behind _ pat _ Hpat pre i 0 None Hi)|].
    split; [apply Hpat|].
    split; [|exact (Forall_search_none _ _ Hall)].
    destruct (analyze_prompt_returns (intro ++ w)) as (p & s & Hp & _ & H).
    rewrite (first_capture_none _ _ (Forall_search_none _ _ Hall)) in Hp.
    inversion Hp; subst p.
    exists (built (intro ++ w) None s). split; [exact H|].
    apply built_no_protagonist.
  - pose proof (setting_patterns_none w Hw intro pat Hin) as Hall.
    assert (Hpat : forall off lc,
               search_from re_IGNORECASE pat off lc (intro ++ w) = None).
    { rewrite Forall_forall in Hall. apply Hall.
      simpl in Hin. destruct Hin as [E|[E|[E|[E|[]]]]]; inversion E; subst;
        simpl; tauto. }
    split; [intros pre i Hi;
            exact (search_none_attempt_behind _ pat _ Hpat pre i 0 None Hi)|].
    split; [apply Hpat|].
    split; [|exact (Forall_search_none _ _ Hall)].
    destruct (analyze_prompt_returns (intro ++ w)) as (p & s & _ & Hs & H).
    rewrite (first_capture_none _ _ (Forall_search_none _ _ Hall)) in Hs.
    inversion Hs; subst s.
    exists (built (intro ++ w) p None). split; [exact H|].
    apply built_no_setting.
Qed.

Lemma C8_token_witness :
  single_token "dragons" = true /\
  search re_IGNORECASE pat_story_of "story of dragons" = None /\
  (exists c,
     analyze_prompt PromptAnalyzer_init "story of dragons" = Ok c /\
     protagonist c = "") /\
  Forall (fun r => search re_IGNORECASE r "story of dragons" = None)
         (character_patterns PromptAnalyzer_init).
Proof.
  split; [reflexivity|].
  refine (proj2 (proj1 (C8_token_at_end_not_captured "dragons" eq_refl)
                   "story of " pat_story_of _)).
  simpl. tauto.
Defined.

(* ================================================================== *)
(** ** The cleaner's fallback *)

(** On a text with planning paragraphs in front the cleaner returns the
    story alone. *)
Lemma clean_planned_story :
  Webapp.clean_story_content planned_story
  = "Once upon a time there was a cat named Tom who lived in a small house "
    ++ "by the sea, and every day he went fishing with his friends."
    ++ Webapp.newline ++ "The end.".
Proof. vm_compute. reflexivity. Qed.

(** C10. When the text left by the planning removal (the regex deletions,
    then the leading planning lines dropped, then [strip]) is shorter than
    100 characters, [clean_story_content] returns the original input
    stripped; otherwise it returns that text.  So it never returns a result
    that both differs from the stripped original and is shorter than 100
    characters. *)
Theorem C10_short_result_falls_back (story_text : string) :
  (PyStr.len (Webapp.cleaned_text story_text) < 100 ->
   Webapp.clean_story_content story_text = PyStr.strip story_text) /\
  (100 <= PyStr.len (Webapp.cleaned_text story_text) ->
   Webapp.clean_story_content story_text = Webapp.cleaned_text story_text) /\
  ~ (Webapp.clean_story_content story_text <> PyStr.strip story_text /\
     PyStr.len (Webapp.clean_story_content story_text) < 100).
Proof.
  unfold Webapp.clean_story_content.
  destruct (PyStr.len (Webapp.cleaned_text story_text) <? 100) eqn:E.
  - apply Nat.ltb_lt in E. repeat split.
    + intros H. lia.
    + intros [H _]. now apply H.
  - apply Nat.ltb_ge in E. repeat split.
    + intros H. lia.
    + intros [_ H]. lia.
Qed.

Lemma C10_fallback_witness :
  Webapp.cleaned_text planned_note = "Hello." /\
  Webapp.clean_story_content planned_note = PyStr.strip planned_note.
Proof.
  split; [vm_compute; reflexivity|].
  apply (proj1 (C10_short_result_falls_back planned_note)).
  vm_compute. lia.
Defined.

(* ================================================================== *)
(** ** Further properties of the analyzer: defaults and table order *)

Lemma keyword_score_zero (keywords : list string) (s : string) :
  keyword_score keywords s = 0 <->
  forall keyword, In keyword keywords -> PyStr.contains keyword s = false.
Proof.
  unfold keyword_score. induction keywords as [|kw kws IH]; simpl.
  - split; [intros _ ? []|reflexivity].
  - destruct (PyStr.contains kw s) eqn:E; simpl.
    + split; [discriminate|]. intros H.
      rewrite (H kw) in E by now left. discriminate.
    + rewrite IH. split.
      * intros H k [<-|Hk]; auto.
      * intros H k Hk. apply H. now right.
Qed.

Lemma any_keyword_false (keywords : list string) (s : string) :
  any_keyword keywords s = false <->
  forall keyword, In keyword keywords -> PyStr.contains keyword s = false.
Proof.
  unfold any_keyword. induction keywords as [|kw kws IH]; simpl.
  - split; [intros _ ? []|reflexivity].
  - rewrite orb_false_iff, IH. split.
    + intros [H1 H2] k [<-|Hk]; auto.
    + intros H. split; [apply H; now left|]. intros k Hk. apply H. now right.
Qed.

(** The loop with [break]: nothing when no entry has a keyword in the
    prompt, otherwise the first entry that has one. *)
Lemma first_label_spec (table : dict (list string)) (prompt_lower : string) :
  (first_label table prompt_lower = None /\
   Forall (fun item => any_keyword (snd item) prompt_lower = false) table)
  \/ (exists label pre kws post,
        first_label table prompt_lower = Some label /\
        table = (pre ++ (label, kws) :: post)%list /\
        any_keyword kws prompt_lower = true /\
        Forall (fun item => any_keyword (snd item) prompt_lower = false) pre).
Proof.
  induction table as [|[label kws] t IH]; simpl.
  - left. split; [reflexivity|constructor].
  - destruct (any_keyword kws prompt_lower) eqn:E.
    + right. exists label, [], kws, t. repeat split; auto.
    + destruct IH as [[H1 H2]|(l & pre & k & post & H1 & H2 & H3 & H4)].
      * left. split; [exact H1|]. constructor; auto.
      * right. exists l, ((label, kws) :: pre), k, post.
        split; [exact H1|]. split; [simpl; now rewrite H2|].
        split; [exact H3|]. constructor; auto.
Qed.

Lemma built_length_eq (prompt : string) (p s : option string) :
  length (built prompt p s)
  = match first_label (length_keywords PromptAnalyzer_init) (PyStr.lower prompt) with
    | Some l => l
    | None => "medium"
    end.
Proof.
  unfold built.
  destruct (max_by_value _), (first_label (length_keywords _) _),
    (first_label (tone_keywords _) _), p, s; reflexivity.
Qed.

Lemma built_tone_eq (prompt : string) (p s : option string) :
  tone (built prompt p s)
  = match first_label (tone_keywords PromptAnalyzer_init) (PyStr.lower prompt) with
    | Some l => l
    | None => "neutral"
    end.
Proof.
  unfold built.
  destruct (max_by_value _), (first_label (length_keywords _) _),
    (first_label (tone_keywords _) _), p, s; reflexivity.
Qed.

(** X1. The genre of the returned record is "general" exactly when no
    keyword of any genre occurs in the lower-cased prompt. *)
Theorem genre_general_iff_no_keyword (prompt : string) :
  exists c,
    analyze_prompt PromptAnalyzer_init prompt = Ok c /\
    (genre c = "general" <->
     forall g keywords keyword,
       In (g, keywords) (genre_keywords PromptAnalyzer_init) ->
       In keyword keywords ->
       PyStr.contains keyword (PyStr.lower prompt) = false).
Proof.
  destruct (analyze_prompt_returns prompt) as (p & s & _ & _ & H).
  exists (built prompt p s). split; [exact H|].
  destruct (built_genre_first_max prompt p s)
    as [[Hg Hzero]|(pre & kws & post & Ht & Hp & _ & _)].
  - split; [|intros _; exact Hg].
    intros _ g keywords keyword Hin Hk.
    rewrite Forall_forall in Hzero. specialize (Hzero _ Hin). simpl in Hzero.
    exact (proj1 (keyword_score_zero _ _) Hzero keyword Hk).
  - assert (Hin : In (genre (built prompt p s), kws)
                     (genre_keywords PromptAnalyzer_init)).
    { rewrite Ht. apply in_or_app. right. now left. }
    split.
    + intros Hg. exfalso.
      assert (Hk : In (genre (built prompt p s)) genre_order).
      { change genre_order with (keys (genre_keywords PromptAnalyzer_init)).
        change (genre (built prompt p s))
          with (fst (genre (built prompt p s), kws)).
        now apply in_map. }
      rewrite Hg in Hk. simpl in Hk. intuition discriminate.
    + intros Hno. exfalso.
      assert (Hz : keyword_score kws (PyStr.lower prompt) = 0).
      { apply keyword_score_zero. intros k Hk. exact (Hno _ _ _ Hin Hk). }
      lia.
Qed.

(** X2. Length and tone follow the declared order of their tables: the
    length is the first of short, medium, long, epic that has a keyword in
    the lower-cased prompt, and "medium" when none has; the tone is the first
    of dark, light, humorous, dramatic, mysterious that has one, and
    "neutral" when none has. *)
Theorem length_and_tone_first_in_order (prompt : string) :
  let pl := PyStr.lower prompt in
  let first_of (table : dict (list string)) (default value : string) :=
    (value = default /\
     Forall (fun item => any_keyword (snd item) pl = false) table)
    \/ (exists pre kws post,
          table = (pre ++ (value, kws) :: post)%list /\
          any_keyword kws pl = true /\
          Forall (fun item => any_keyword (snd item) pl = false) pre) in
  exists c,
    analyze_prompt PromptAnalyzer_init prompt = Ok c /\
    first_of (length_keywords PromptAnalyzer_init) "medium" (length c) /\
    first_of (tone_keywords PromptAnalyzer_init) "neutral" (tone c).
Proof.
  intros pl first_of.
  destruct (analyze_prompt_returns prompt) as (p & s & _ & _ & H).
  exists (built prompt p s). split; [exact H|].
  unfold first_of. rewrite built_length_eq, built_tone_eq. fold pl. split.
  - destruct (first_label_spec (length_keywords PromptAnalyzer_init) pl)
      as [[H1 H2]|(l & pre & k & post & H1 & H2 & H3 & H4)]; rewrite H1.
    + left. auto.
    + right. exists pre, k, post. auto.
  - destruct (first_label_spec (tone_keywords PromptAnalyzer_init) pl)
      as [[H1 H2]|(l & pre & k & post & H1 & H2 & H3 & H4)]; rewrite H1.
    + left. auto.
    + right. exists pre, k, post. auto.
Qed.

(* ================================================================== *)
(** ** Lower-casing the prompt *)

Lemma lower_char_idem (c : ascii) :
  PyStr.lower_char (PyStr.lower_char c) = PyStr.lower_char c.
Proof. destruct c as [[] [] [] [] [] [] [] []]; reflexivity. Qed.

Lemma is_space_lower_char (c : ascii) :
  PyStr.is_space (PyStr.lower_char c) = PyStr.is_space c.
Proof. destruct c as [[] [] [] [] [] [] [] []]; reflexivity. Qed.

Lemma is_newline_lower_char (c : ascii) :
  Ascii.eqb (PyStr.lower_char c) "010" = Ascii.eqb c "010".
Proof. destruct c as [[] [] [] [] [] [] [] []]; reflexivity. Qed.

Lemma lower_idem (s : string) : PyStr.lower (PyStr.lower s) = PyStr.lower s.
Proof.
  induction s as [|c s IH]; simpl; [reflexivity|].
  now rewrite lower_char_idem, IH.
Qed.

Lemma lstrip_lower (s : string) :
  PyStr.lstrip (PyStr.lower s) = PyStr.lower (PyStr.lstrip s).
Proof.
  induction s as [|c s IH]; simpl; [reflexivity|].
  rewrite is_space_lower_char. now destruct (PyStr.is_space c).
Qed.

Lemma rstrip_lower (s : string) :
  PyStr.rstrip (PyStr.lower s) = PyStr.lower (PyStr.rstrip s).
Proof.
  induction s as [|c s IH]; simpl; [reflexivity|].
  rewrite IH, is_space_lower_char.
  destruct (PyStr.rstrip s); simpl; [|reflexivity].
  now destruct (PyStr.is_space c).
Qed.

Lemma strip_lower (s : string) :
  PyStr.strip (PyStr.lower s) = PyStr.lower (PyStr.strip s).
Proof. unfold PyStr.strip. now rewrite lstrip_lower, rstrip_lower. Qed.

Lemma substring_lower (s : string) :
  forall n m, substring n m (PyStr.lower s) = PyStr.lower (substring n m s).
Proof.
  induction s as [|c s IH]; intros [|n] [|m]; simpl; try reflexivity.
  - now rewrite IH.
  - apply IH.
  - apply IH.
Qed.

Section IgnoreCase.
Variable fl : flags.
Hypothesis ignorecase : IGNORECASE fl = true.

Lemma chr_eq_lower (p c : ascii) :
  chr_eq fl p (PyStr.lower_char c) = chr_eq fl p c.
Proof. unfold chr_eq. now rewrite ignorecase, lower_char_idem. Qed.

Lemma in_cset_lower (cs : cset) (c : ascii) :
  in_cset fl cs (PyStr.lower_char c) = in_cset fl cs c.
Proof.
  induction cs as [| |p|lo hi|a IHa b IHb]; simpl.
  - now rewrite is_newline_lower_char.
  - apply is_space_lower_char.
  - apply chr_eq_lower.
  - now rewrite ignorecase, lower_char_idem.
  - now rewrite IHa, IHb.
Qed.

Lemma lit_lower (l : string) :
  forall st,
    lit fl l (lower_state st) = option_map lower_state (lit fl l st).
Proof.
  induction l as [|p l IH]; intros st; simpl; [reflexivity|].
  destruct (rest st) as [|c s'] eqn:E; simpl; [reflexivity|].
  rewrite chr_eq_lower. destruct (chr_eq fl p c); [|reflexivity].
  rewrite <- IH. reflexivity.
Qed.

Lemma star_lower (greedy : bool) (cs : cset)
      (k k' : mstate -> option mstate) :
  (forall st, k' (lower_state st) = option_map lower_state (k st)) ->
  forall s n l g,
    star fl greedy cs k' n (option_map PyStr.lower_char l)
         (option_map PyStr.lower g) (PyStr.lower s)
    = option_map lower_state (star fl greedy cs k n l g s).
Proof.
  intros Hk. induction s as [|c s IH]; intros n l g.
  - simpl. pose proof (Hk (MState n l "" g)) as E.
    unfold lower_state in E; simpl in E. rewrite E.
    destruct greedy, (k (MState n l "" g)); reflexivity.
  - cbn [star PyStr.lower]. rewrite in_cset_lower.
    pose proof (Hk (MState n l (String c s) g)) as E.
    unfold lower_state in E; simpl in E. rewrite E.
    pose proof (IH (S n) (Some c) g) as E'. simpl in E'. rewrite E'.
    destruct greedy, (in_cset fl cs c),
      (star fl _ cs k (S n) (Some c) g s),
      (k (MState n l (String c s) g)); reflexivity.
Qed.

(** Under IGNORECASE the matcher does on the lower-cased subject what it
    does on the subject, with the text of its states in lower case. *)
Lemma rmatch_lower (r : regex) :
  forall st k k',
    (forall st1, k' (lower_state st1) = option_map lower_state (k st1)) ->
    rmatch fl r (lower_state st) k' = option_map lower_state (rmatch fl r st k).
Proof.
  induction r as [|l|cs|greedy cs|a IHa b IHb|a IHa b IHb|a IHa|a IHa| |a IHa];
    intros st k k' Hk; cbn [rmatch].
  - apply Hk.
  - rewrite lit_lower. destruct (lit fl l st); simpl; [apply Hk|reflexivity].
  - unfold lower_state at 1. cbn [rest].
    destruct (rest st) as [|c s'] eqn:E; simpl; [reflexivity|].
    rewrite in_cset_lower. destruct (in_cset fl cs c); [|reflexivity].
    rewrite <- Hk. unfold lower_state, advance. simpl. reflexivity.
  - unfold lower_state at 1. cbn [consumed last rest group1].
    now apply star_lower.
  - apply IHa. intros st1. now apply IHb.
  - rewrite (IHa st k k' Hk), (IHb st k k' Hk).
    destruct (rmatch fl a st k); reflexivity.
  - rewrite (IHa st k k' Hk), Hk.
    destruct (rmatch fl a st k); reflexivity.
  - apply IHa. intros st1. rewrite <- Hk.
    unfold lower_state, set_group. simpl. now rewrite substring_lower.
  - unfold at_bol, lower_state at 1. cbn [last].
    destruct (last st) as [c|]; simpl.
    + rewrite is_newline_lower_char.
      destruct (MULTILINE fl && Ascii.eqb c "010"); [apply Hk|reflexivity].
    + apply Hk.
  - rewrite (IHa st Some Some) by reflexivity.
    destruct (rmatch fl a st Some); simpl; [apply Hk|reflexivity].
Qed.

Lemma search_from_lower (r : regex) :
  forall s off lc,
    search_from fl r off (option_map PyStr.lower_char lc) (PyStr.lower s)
    = option_map lower_match (search_from fl r off lc s).
Proof.
  assert (Hhere : forall s off lc,
             match_here fl r off (option_map PyStr.lower_char lc) (PyStr.lower s)
             = option_map lower_match (match_here fl r off lc s)).
  { intros s off lc. unfold match_here.
    pose proof (rmatch_lower r (MState 0 lc s None) Some Some
                  (fun _ => eq_refl)) as E.
    unfold lower_state at 1 in E. simpl in E. rewrite E.
    destruct (rmatch fl r (MState 0 lc s None) Some); reflexivity. }
  induction s as [|c s IH]; intros off lc.
  - pose proof (Hhere "" off lc) as E. simpl in *. rewrite E.
    destruct (match_here fl r off lc ""); reflexivity.
  - pose proof (Hhere (String c s) off lc) as E.
    cbn [search_from PyStr.lower] in *. rewrite E.
    destruct (match_here fl r off lc (String c s)); [reflexivity|].
    simpl. exact (IH (S off) (Some c)).
Qed.

End IgnoreCase.

Lemma first_capture_lower (patterns : list regex) (prompt : string) :
  first_capture patterns (PyStr.lower prompt)
  = match first_capture patterns prompt with
    | Ok o => Ok (option_map PyStr.lower o)
    | Raise e => Raise e
    end.
Proof.
  induction patterns as [|r rs IH]; simpl; [reflexivity|].
  unfold search.
  pose proof (search_from_lower re_IGNORECASE eq_refl r prompt 0 None) as E.
  cbn [option_map] in E. rewrite E. clear E.
  destruct (search_from re_IGNORECASE r 0 None prompt) as [m|]; simpl;
    [|exact IH].
  unfold group_1. destruct (has_group r); simpl; [|reflexivity].
  destruct (m_group1 m); simpl; [|reflexivity].
  now rewrite strip_lower.
Qed.

(** X3. For a prompt made of code points below 256, the strings of this
    model, the analysis does not depend on the case of the prompt: on the
    lower-cased prompt genre, length and tone are the same, and protagonist
    and setting are the lower-cased protagonist and setting.  Above 255 this
    is not so: [str.lower] can change the number of code points there
    (U+0130 becomes two), which moves what a capture takes. *)
Theorem analyze_prompt_lower (prompt : string) :
  exists c c',
    analyze_prompt PromptAnalyzer_init prompt = Ok c /\
    analyze_prompt PromptAnalyzer_init (PyStr.lower prompt) = Ok c' /\
    genre c' = genre c /\ length c' = length c /\ tone c' = tone c /\
    protagonist c' = PyStr.lower (protagonist c) /\
    setting c' = PyStr.lower (setting c).
Proof.
  destruct (analyze_prompt_returns prompt) as (p & s & Hp & Hs & H).
  destruct (analyze_prompt_returns (PyStr.lower prompt))
    as (p' & s' & Hp' & Hs' & H').
  rewrite first_capture_lower, Hp in Hp'. inversion Hp'; subst p'.
  rewrite first_capture_lower, Hs in Hs'. inversion Hs'; subst s'.
  exists (built prompt p s),
    (built (PyStr.lower prompt) (option_map PyStr.lower p)
           (option_map PyStr.lower s)).
  split; [exact H|]. split; [exact H'|].
  unfold built. rewrite lower_idem.
  destruct (max_by_value _), (first_label (length_keywords _) _),
    (first_label (tone_keywords _) _), p, s; repeat split.
Qed.

(* ================================================================== *)
(** ** Facts on strings *)

Lemma str_app_assoc (a b c : string) : (a ++ b) ++ c = a ++ (b ++ c).
Proof. induction a as [|x a IH]; simpl; [reflexivity|now rewrite IH]. Qed.

Lemma str_app_nil_r (a : string) : a ++ "" = a.
Proof. induction a as [|x a IH]; simpl; [reflexivity|now rewrite IH]. Qed.

Lemma str_app_length (a b : string) :
  String.length (a ++ b) = String.length a + String.length b.
Proof. induction a as [|x a IH]; simpl; [reflexivity|now rewrite IH]. Qed.

Lemma substring_of_refl (s : string) : substring_of s s.
Proof. exists "", "". simpl. now rewrite str_app_nil_r. Qed.

Lemma substring_of_trans (a b c : string) :
  substring_of a b -> substring_of b c -> substring_of a c.
Proof.
  intros (p & q & ->) (p' & q' & ->).
  exists (p' ++ p), (q ++ q'). now rewrite !str_app_assoc.
Qed.

Lemma suffix_substring_of (a b : string) : is_suffix a b -> substring_of a b.
Proof. intros [p ->]. exists p, "". now rewrite str_app_nil_r. Qed.

Lemma substring_prefix (s : string) :
  forall n, exists after, s = substring 0 n s ++ after.
Proof.
  induction s as [|c s IH]; intros [|n]; simpl.
  - now exists "".
  - now exists "".
  - now exists (String c s).
  - destruct (IH n) as [after E]. exists after. now rewrite <- E.
Qed.

Lemma substring_of_substring (s : string) (n : nat) :
  substring_of (substring 0 n s) s.
Proof. destruct (substring_prefix s n) as [after E]. now exists "", after. Qed.

Lemma substring_app_exact (a b : string) :
  substring 0 (String.length a) (a ++ b) = a.
Proof.
  induction a as [|c a IH]; simpl.
  - now destruct b.
  - now rewrite IH.
Qed.

Lemma lstrip_suffix (s : string) : is_suffix (PyStr.lstrip s) s.
Proof.
  induction s as [|c s IH]; simpl; [apply is_suffix_refl|].
  destruct (PyStr.is_space c); [|apply is_suffix_refl].
  now apply is_suffix_tail.
Qed.

Lemma rstrip_prefix (s : string) : exists after, s = PyStr.rstrip s ++ after.
Proof.
  induction s as [|c s [after IH]]; simpl; [now exists ""|].
  destruct (PyStr.rstrip s) as [|d r] eqn:E.
  - destruct (PyStr.is_space c).
    + now exists (String c s).
    + exists s. reflexivity.
  - exists after. simpl in *. now rewrite <- IH.
Qed.

Lemma strip_substring_of (s : string) : substring_of (PyStr.strip s) s.
Proof.
  unfold PyStr.strip.
  apply substring_of_trans with (PyStr.lstrip s).
  - destruct (rstrip_prefix (PyStr.lstrip s)) as [after E].
    now exists "", after.
  - apply suffix_substring_of, lstrip_suffix.
Qed.

Lemma rstrip_idem (s : string) : PyStr.rstrip (PyStr.rstrip s) = PyStr.rstrip s.
Proof.
  induction s as [|c s IH]; simpl; [reflexivity|].
  destruct (PyStr.rstrip s) as [|d r] eqn:E.
  - destruct (PyStr.is_space c) eqn:Ec; simpl; [reflexivity|now rewrite Ec].
  - simpl in *. now rewrite IH.
Qed.

Lemma lstrip_clean_head (s : string) :
  match PyStr.lstrip s with
  | EmptyString => True
  | String c _ => PyStr.is_space c = false
  end.
Proof.
  induction s as [|c s IH]; simpl; [exact I|].
  destruct (PyStr.is_space c) eqn:E; [exact IH|exact E].
Qed.

Lemma rstrip_head (c : ascii) (s : string) :
  PyStr.is_space c = false ->
  exists r, PyStr.rstrip (String c s) = String c r.
Proof.
  intros E. simpl. destruct (PyStr.rstrip s).
  - rewrite E. now exists "".
  - eauto.
Qed.

Lemma strip_idem (s : string) : PyStr.strip (PyStr.strip s) = PyStr.strip s.
Proof.
  unfold PyStr.strip.
  pose proof (lstrip_clean_head s) as H.
  destruct (PyStr.lstrip s) as [|c t] eqn:E; [reflexivity|].
  destruct (rstrip_head c t H) as [r Hr]. rewrite Hr.
  cbn [PyStr.lstrip]. rewrite H. rewrite <- Hr. apply rstrip_idem.
Qed.

Lemma rstrip_no_space (s : string) :
  all_chars not_space s = true -> PyStr.rstrip s = s.
Proof.
  induction s as [|c s IH]; simpl; [reflexivity|].
  intros H. apply andb_true_iff in H. destruct H as [Hc Hs].
  rewrite (IH Hs). unfold not_space in Hc. apply negb_true_iff in Hc.
  rewrite Hc. now destruct s.
Qed.

Lemma lstrip_no_space (s : string) :
  all_chars not_space s = true -> PyStr.lstrip s = s.
Proof.
  destruct s as [|c s]; simpl; [reflexivity|].
  intros H. apply andb_true_iff in H. destruct H as [Hc _].
  unfold not_space in Hc. apply negb_true_iff in Hc. now rewrite Hc.
Qed.

(* ================================================================== *)
(** ** What the patterns capture *)

Section Within.
Variable fl : flags.
Variable subject : string.

Lemma star_within (greedy : bool) (cs : cset) (k : mstate -> option mstate) :
  keeps_within subject k ->
  forall s n l g st',
    is_suffix s subject ->
    (forall t, g = Some t -> substring_of t subject) ->
    star fl greedy cs k n l g s = Some st' ->
    group_within subject st'.
Proof.
  intros Hk. induction s as [|c s IH]; intros n l g st' Hs Hg H.
  - assert (K : forall st2, k (MState n l "" g) = Some st2 ->
                            group_within subject st2).
    { intros st2. apply Hk; [exact Hs|exact Hg]. }
    simpl in H. destruct greedy; [now apply K|].
    destruct (k (MState n l "" g)) eqn:E; [|discriminate].
    inversion H; subst. now apply K.
  - assert (K : forall st2, k (MState n l (String c s) g) = Some st2 ->
                            group_within subject st2).
    { intros st2. apply Hk; [exact Hs|exact Hg]. }
    assert (Hs' : is_suffix s subject).
    { apply is_suffix_trans with (String c s); [|exact Hs].
      apply is_suffix_tail, is_suffix_refl. }
    simpl in H. destruct greedy.
    + destruct (in_cset fl cs c).
      * destruct (star fl true cs k (S n) (Some c) g s) eqn:E.
        -- inversion H; subst. exact (IH _ _ _ _ Hs' Hg E).
        -- now apply K.
      * now apply K.
    + destruct (k (MState n l (String c s) g)) eqn:E.
      * inversion H; subst. now apply K.
      * destruct (in_cset fl cs c); [|discriminate].
        exact (IH _ _ _ _ Hs' Hg H).
Qed.

Lemma rmatch_within (r : regex) :
  forall k, keeps_within subject k ->
            keeps_within subject (fun st => rmatch fl r st k).
Proof.
  induction r as [|l|cs|greedy cs|a IHa b IHb|a IHa b IHb|a IHa|a IHa| |a IHa];
    intros k Hk st st' Hs Hg H; simpl in H.
  - exact (Hk _ _ Hs Hg H).
  - destruct (lit fl l st) as [st1|] eqn:E; [|discriminate].
    apply (Hk st1 st'); [| |exact H].
    + exact (is_suffix_trans _ _ _ (lit_suffix _ _ _ _ E) Hs).
    + intros g Hg1. apply Hg. now rewrite <- (lit_group _ _ _ _ E).
  - destruct (rest st) as [|c s'] eqn:E; [discriminate|].
    destruct (in_cset fl cs c); [|discriminate].
    apply (Hk (advance c s' st) st'); [| |exact H].
    + simpl. apply is_suffix_trans with (String c s'); [|exact Hs].
      apply is_suffix_tail, is_suffix_refl.
    + exact Hg.
  - exact (star_within greedy cs k Hk _ _ _ _ _ Hs Hg H).
  - exact (IHa _ (IHb _ Hk) _ _ Hs Hg H).
  - destruct (rmatch fl a st k) eqn:E.
    + inversion H; subst. exact (IHa _ Hk _ _ Hs Hg E).
    + exact (IHb _ Hk _ _ Hs Hg H).
  - destruct (rmatch fl a st k) eqn:E.
    + inversion H; subst. exact (IHa _ Hk _ _ Hs Hg E).
    + exact (Hk _ _ Hs Hg H).
  - refine (IHa _ _ _ _ Hs Hg H).
    intros st1 st2 Hs1 _ H1.
    apply (Hk (set_group (substring 0 (consumed st1 - consumed st) (rest st)) st1)
              st2 Hs1); [|exact H1].
    intros g Eg. simpl in Eg. inversion Eg; subst g.
    apply substring_of_trans with (rest st).
    + apply substring_of_substring.
    + now apply suffix_substring_of.
  - destruct (at_bol fl st); [|discriminate]. exact (Hk _ _ Hs Hg H).
  - destruct (rmatch fl a st Some); [|discriminate]. exact (Hk _ _ Hs Hg H).
Qed.

Lemma search_from_within (r : regex) :
  forall s off lc m g,
    is_suffix s subject ->
    search_from fl r off lc s = Some m -> m_group1 m = Some g ->
    substring_of g subject.
Proof.
  assert (Hhere : forall s off lc m g,
             is_suffix s subject ->
             match_here fl r off lc s = Some m -> m_group1 m = Some g ->
             substring_of g subject).
  { intros s off lc m g Hs H Hg. unfold match_here in H.
    destruct (rmatch fl r (MState 0 lc s None) Some) as [st|] eqn:E;
      [|discriminate].
    inversion H; subst m. simpl in Hg.
    refine (rmatch_within r Some _ _ _ _ _ E g Hg).
    - intros st1 st2 _ H1 H2. now inversion H2; subst.
    - exact Hs.
    - intros t Ht. discriminate Ht. }
  induction s as [|c s IH]; intros off lc m g Hs H Hg; simpl in H.
  - destruct (match_here fl r off lc "") eqn:E; [|discriminate].
    inversion H; subst. exact (Hhere _ _ _ _ _ Hs E Hg).
  - destruct (match_here fl r off lc (String c s)) eqn:E.
    + inversion H; subst. exact (Hhere _ _ _ _ _ Hs E Hg).
    + refine (IH _ _ _ _ _ H Hg).
      apply is_suffix_trans with (String c s); [|exact Hs].
      apply is_suffix_tail, is_suffix_refl.
Qed.

End Within.

Lemma first_capture_within (patterns : list regex) (prompt text : string) :
  first_capture patterns prompt = Ok (Some text) ->
  substring_of text prompt /\ PyStr.strip text = text.
Proof.
  induction patterns as [|r rs IH]; simpl; [discriminate|].
  destruct (search re_IGNORECASE r prompt) as [m|] eqn:E; [|exact IH].
  unfold group_1. destruct (has_group r); simpl; [|discriminate].
  destruct (m_group1 m) as [g|] eqn:Eg; [|discriminate].
  intros H. inversion H; subst text. split; [|apply strip_idem].
  apply substring_of_trans with g; [apply strip_substring_of|].
  exact (search_from_within _ prompt r prompt 0 None m g
           (is_suffix_refl _) E Eg).
Qed.

Lemma built_protagonist_eq (prompt : string) (p s : option string) :
  protagonist (built prompt p s) = match p with Some t => t | None => "" end.
Proof.
  unfold built.
  destruct (max_by_value _), (first_label (length_keywords _) _),
    (first_label (tone_keywords _) _), p, s; reflexivity.
Qed.

Lemma built_setting_eq (prompt : string) (p s : option string) :
  setting (built prompt p s) = match s with Some t => t | None => "" end.
Proof.
  unfold built.
  destruct (max_by_value _), (first_label (length_keywords _) _),
    (first_label (tone_keywords _) _), p, s; reflexivity.
Qed.

(** X4. Protagonist and setting are taken from the prompt as it is
    written: each is a run of consecutive characters of the original
    prompt, in its original case, and has no whitespace at either end. *)
Theorem captures_are_stripped_pieces_of_prompt (prompt : string) :
  exists c,
    analyze_prompt PromptAnalyzer_init prompt = Ok c /\
    substring_of (protagonist c) prompt /\
    substring_of (setting c) prompt /\
    PyStr.strip (protagonist c) = protagonist c /\
    PyStr.strip (setting c) = setting c.
Proof.
  destruct (analyze_prompt_returns prompt) as (p & s & Hp & Hs & H).
  exists (built prompt p s). split; [exact H|].
  rewrite built_protagonist_eq, built_setting_eq.
  assert (E0 : substring_of "" prompt) by now exists "", prompt.
  destruct p as [tp|], s as [ts|];
    try destruct (first_capture_within _ _ _ Hp) as [P1 P2];
    try destruct (first_capture_within _ _ _ Hs) as [S1 S2];
    repeat split; auto.
Qed.

(* ================================================================== *)
(** ** The setting is one token *)

Lemma terminator_not_space (c : ascii) :
  in_cset re_IGNORECASE terminator c = false -> PyStr.is_space c = false.
Proof.
  unfold terminator. cbn [in_cset]. intros H.
  apply orb_false_iff in H. destruct H as [_ H].
  apply orb_false_iff in H. tauto.
Qed.

Lemma no_terminator_snoc (a : string) (c : ascii) :
  no_terminator a = true ->
  in_cset re_IGNORECASE terminator c = false ->
  no_terminator (a ++ String c "") = true.
Proof.
  intros Ha Hc. induction a as [|x a IH]; cbn [append no_terminator] in *.
  - now rewrite Hc.
  - apply andb_true_iff in Ha. destruct Ha as [Hx Ha].
    now rewrite Hx, (IH Ha).
Qed.

Lemma no_terminator_no_space (s : string) :
  no_terminator s = true -> all_chars not_space s = true.
Proof.
  induction s as [|c s IH]; cbn [no_terminator all_chars]; [trivial|].
  intros H. apply andb_true_iff in H. destruct H as [Hc Hs].
  apply negb_true_iff in Hc. unfold not_space at 1.
  now rewrite (terminator_not_space c Hc), (IH Hs).
Qed.

(** The lazy star of [(.+?)] in front of [[\.,\s]]: when it stops, group 1
    is the first character and the characters passed so far, none of them a
    terminator. *)
Lemma star_lazy_token (n0 : nat) (c1 : ascii) (whole : string) :
  forall sj pre l g st',
    whole = pre ++ sj ->
    no_terminator pre = true ->
    star re_IGNORECASE false CDot
         (fun stn =>
            rmatch re_IGNORECASE (RSet terminator)
                   (set_group (substring 0 (consumed stn - n0) (String c1 whole))
                              stn)
                   Some)
         (S (n0 + String.length pre)) l g sj = Some st' ->
    exists g', group1 st' = Some (String c1 g') /\ no_terminator g' = true.
Proof.
  induction sj as [|c t IH]; intros pre l g st' Hw Hp H.
  - cbn [star rmatch set_group rest] in H. discriminate.
  - cbn [star rmatch set_group rest consumed] in H.
    destruct (in_cset re_IGNORECASE terminator c) eqn:Et.
    + replace (S (n0 + String.length pre) - n0) with (S (String.length pre))
        in H by lia.
      injection H as <-. cbn [advance set_group group1 substring].
      rewrite Hw, substring_app_exact. eauto.
    + destruct (in_cset re_IGNORECASE CDot c); [|discriminate].
      apply (IH (pre ++ String c "") (Some c) g st').
      * rewrite str_app_assoc. exact Hw.
      * now apply no_terminator_snoc.
      * rewrite str_app_length. cbn [String.length].
        replace (S (n0 + (String.length pre + 1)))
          with (S (S (n0 + String.length pre))) by lia.
        exact H.
Qed.

Lemma lazy_capture_token (st st' : mstate) :
  rmatch re_IGNORECASE (RSeq capture_lazy (RSet terminator)) st Some = Some st' ->
  exists c1 g', group1 st' = Some (String c1 g') /\ no_terminator g' = true.
Proof.
  unfold capture_lazy, RPlus. cbn [rmatch].
  destruct (rest st) as [|c1 s'] eqn:E; [discriminate|].
  destruct (in_cset re_IGNORECASE CDot c1); [|discriminate].
  cbn [advance consumed last rest group1]. intros H.
  exists c1.
  apply (star_lazy_token (consumed st) c1 s' s' "" (Some c1) (group1 st) st').
  - reflexivity.
  - reflexivity.
  - cbn [String.length]. rewrite Nat.add_0_r. exact H.
Qed.

Lemma search_from_token (l : string) :
  forall s off lc m,
    search_from re_IGNORECASE
                (RSeq (RLit l) (RSeq capture_lazy (RSet terminator))) off lc s
    = Some m ->
    exists c1 g', m_group1 m = Some (String c1 g') /\ no_terminator g' = true.
Proof.
  assert (Hhere : forall s off lc m,
             match_here re_IGNORECASE
               (RSeq (RLit l) (RSeq capture_lazy (RSet terminator))) off lc s
             = Some m ->
             exists c1 g',
               m_group1 m = Some (String c1 g') /\ no_terminator g' = true).
  { intros s off lc m H. unfold match_here in H.
    destruct (rmatch _ _ _ Some) as [st|] eqn:E; [|discriminate].
    inversion H; subst m. cbn [m_group1].
    cbn [rmatch] in E.
    destruct (lit re_IGNORECASE l (MState 0 lc s None)) as [st1|];
      [|discriminate].
    exact (lazy_capture_token st1 st E). }
  induction s as [|c s IH]; intros off lc m H; simpl in H.
  - destruct (match_here _ _ off lc "") eqn:E; [|discriminate].
    inversion H; subst. exact (Hhere _ _ _ _ E).
  - destruct (match_here _ _ off lc (String c s)) eqn:E.
    + inversion H; subst. exact (Hhere _ _ _ _ E).
    + exact (IH _ _ _ H).
Qed.

Lemma strip_token (c1 : ascii) (g : string) :
  no_terminator g = true ->
  all_chars not_space (PyStr.strip (String c1 g)) = true /\
  single_token (PyStr.strip (String c1 g)) = true.
Proof.
  intros Hg. pose proof (no_terminator_no_space g Hg) as Hs.
  unfold PyStr.strip. cbn [PyStr.lstrip].
  destruct (PyStr.is_space c1) eqn:E.
  - rewrite (lstrip_no_space g Hs), (rstrip_no_space g Hs).
    split; [exact Hs|now apply no_terminator_single].
  - assert (Ha : all_chars not_space (String c1 g) = true).
    { cbn [all_chars]. unfold not_space at 1. now rewrite E, Hs. }
    rewrite (rstrip_no_space _ Ha). split; [exact Ha|exact Hg].
Qed.

Lemma first_setting_token (prompt text : string) :
  first_capture (setting_patterns PromptAnalyzer_init) prompt = Ok (Some text) ->
  all_chars not_space text = true /\ single_token text = true.
Proof.
  cbn [setting_patterns PromptAnalyzer_init first_capture].
  unfold pat_set_in, pat_takes_place_in, pat_located_in, pat_world_of.
  cbn [RCat].
  repeat
    (match goal with
     | |- context [search re_IGNORECASE ?r prompt] =>
         let E := fresh "E" in
         destruct (search re_IGNORECASE r prompt) as [m|] eqn:E;
         [ destruct (search_from_token _ _ _ _ _ E) as (c1 & g & Hg & Hn);
           unfold group_1; cbn [has_group capture_lazy orb bind];
           rewrite Hg; intros H; inversion H; subst text;
           now apply strip_token
         | ]
     end).
  discriminate.
Qed.

(** X5. The setting of the returned record never holds whitespace, and
    holds no period or comma after its first character: the lazy capture of
    the four setting patterns ends at the first terminator, so the setting is
    at most one word of the prompt. *)
Theorem setting_is_one_token (prompt : string) :
  exists c,
    analyze_prompt PromptAnalyzer_init prompt = Ok c /\
    all_chars not_space (setting c) = true /\
    single_token (setting c) = true.
Proof.
  destruct (analyze_prompt_returns prompt) as (p & s & _ & Hs & H).
  exists (built prompt p s). split; [exact H|].
  rewrite built_setting_eq. destruct s as [t|]; [|split; reflexivity].
  exact (first_setting_token prompt t Hs).
Qed.

(* ================================================================== *)
(** ** The cleaner only deletes *)

Lemma subseq_refl (s : string) : subseq s s.
Proof. induction s; constructor; assumption. Qed.

Lemma subseq_trans (a b c : string) : subseq a b -> subseq b c -> subseq a c.
Proof.
  intros Hab Hbc. revert a Hab.
  induction Hbc as [|x b c Hbc IH|x b c Hbc IH]; intros a Hab.
  - exact Hab.
  - inversion Hab; subst.
    + constructor. now apply IH.
    + apply subseq_drop. now apply IH.
  - apply subseq_drop. now apply IH.
Qed.

Lemma subseq_nil_l (s : string) : subseq "" s.
Proof. induction s; constructor; assumption. Qed.

Lemma subseq_app_drop (p a b : string) : subseq a b -> subseq a (p ++ b).
Proof. intros H. induction p; simpl; [exact H|now constructor]. Qed.

Lemma subseq_app_keep (a q : string) : subseq a (a ++ q).
Proof. induction a; simpl; [apply subseq_nil_l|now constructor]. Qed.

Lemma substring_of_subseq (a b : string) : substring_of a b -> subseq a b.
Proof. intros (p & q & ->). apply subseq_app_drop, subseq_app_keep. Qed.

Lemma subseq_length (a b : string) :
  subseq a b -> String.length a <= String.length b.
Proof. induction 1; simpl; lia. Qed.

Lemma sub_del_subseq (fl : flags) (r : regex) (s : string) :
  forall skip l, subseq (sub_del fl r skip l s) s.
Proof.
  induction s as [|c s IH]; intros skip l; simpl; [constructor|].
  destruct skip as [|n]; [|apply subseq_drop, IH].
  destruct (match_nonempty fl r l (String c s)) as [[|n]|];
    first [apply subseq_keep, IH | apply subseq_drop, IH].
Qed.

Lemma fold_sub_subseq (fl : flags) (patterns : list regex) :
  forall s,
    subseq (fold_left (fun text pattern => sub_empty fl pattern text)
                      patterns s) s.
Proof.
  induction patterns as [|r rs IH]; intros s; simpl; [apply subseq_refl|].
  apply subseq_trans with (sub_empty fl r s); [apply IH|].
  apply sub_del_subseq.
Qed.

Lemma split_not_nil (sep : ascii) (s : string) : PyStr.split sep s <> [].
Proof.
  destruct s as [|c s]; simpl; [discriminate|].
  destruct (Ascii.eqb c sep); [discriminate|].
  destruct (PyStr.split sep s); discriminate.
Qed.

Lemma join_cons (sep x y : string) (t : list string) :
  PyStr.join sep (x :: y :: t) = x ++ sep ++ PyStr.join sep (y :: t).
Proof. reflexivity. Qed.

(** [sep.join(s.split(sep)) == s] *)
Lemma join_split (sep : ascii) (s : string) :
  PyStr.join (String sep "") (PyStr.split sep s) = s.
Proof.
  induction s as [|c s IH]; simpl; [reflexivity|].
  pose proof (split_not_nil sep s) as Hne.
  destruct (Ascii.eqb c sep) eqn:E.
  - apply Ascii.eqb_eq in E. subst c.
    destruct (PyStr.split sep s) as [|l ls]; [contradiction|].
    rewrite join_cons, IH. reflexivity.
  - destruct (PyStr.split sep s) as [|l ls]; [contradiction|].
    destruct ls as [|l' ls].
    + unfold PyStr.join in *. simpl in *. now rewrite IH.
    + rewrite join_cons. rewrite join_cons in IH. rewrite <- IH.
      reflexivity.
Qed.

(** [sep.join(parts[i:])] is the end of [sep.join(parts)]. *)
Lemma join_skipn_suffix (sep : string) (parts : list string) :
  forall i, is_suffix (PyStr.join sep (skipn i parts)) (PyStr.join sep parts).
Proof.
  induction parts as [|x t IH]; intros [|i]; simpl skipn;
    try apply is_suffix_refl.
  apply is_suffix_trans with (PyStr.join sep t); [apply IH|].
  destruct t as [|y t].
  - exists x. unfold PyStr.join. simpl. now rewrite str_app_nil_r.
  - rewrite join_cons. exists (x ++ sep). now rewrite str_app_assoc.
Qed.

Lemma cleaned_text_subseq (story_text : string) :
  subseq (Webapp.cleaned_text story_text) story_text.
Proof.
  unfold Webapp.cleaned_text.
  set (cleaned := fold_left _ Webapp.planning_patterns story_text).
  apply subseq_trans with cleaned; [|apply fold_sub_subseq].
  eapply subseq_trans; [apply substring_of_subseq, strip_substring_of|].
  apply substring_of_subseq, suffix_substring_of.
  pose proof (join_skipn_suffix Webapp.newline (PyStr.split Webapp.nl cleaned)) as H.
  unfold Webapp.newline in H at 2. rewrite join_split in H. apply H.
Qed.

(** X6. [clean_story_content] only deletes: its result is the input with
    some characters left out, in the same order, so it is never longer than
    the input. *)
Theorem clean_story_content_only_deletes (story_text : string) :
  subseq (Webapp.clean_story_content story_text) story_text /\
  PyStr.len (Webapp.clean_story_content story_text) <= PyStr.len story_text.
Proof.
  assert (H : subseq (Webapp.clean_story_content story_text) story_text).
  { unfold Webapp.clean_story_content.
    destruct (PyStr.len (Webapp.cleaned_text story_text) <? 100).
    - apply substring_of_subseq, strip_substring_of.
    - apply cleaned_text_subseq. }
  split; [exact H|]. now apply subseq_length.
Qed.

(** X7. The result of [clean_story_content] has no whitespace at either
    end: stripping it again changes nothing. *)
Theorem clean_story_content_is_stripped (story_text : string) :
  PyStr.strip (Webapp.clean_story_content story_text)
  = Webapp.clean_story_content story_text.
Proof.
  unfold Webapp.clean_story_content.
  destruct (PyStr.len (Webapp.cleaned_text story_text) <? 100).
  - apply strip_idem.
  - unfold Webapp.cleaned_text. apply strip_idem.
Qed.

(** X8. A text shorter than 100 characters is never cleaned: whatever
    planning lines it holds, [clean_story_content] returns it stripped. *)
Theorem clean_story_content_short_input (story_text : string) :
  PyStr.len story_text < 100 ->
  Webapp.clean_story_content story_text = PyStr.strip story_text.
Proof.
  intros H. unfold Webapp.clean_story_content.
  pose proof (subseq_length _ _ (cleaned_text_subseq story_text)) as Hle.
  unfold PyStr.len in *.
  destruct (String.length (Webapp.cleaned_text story_text) <? 100) eqn:E;
    [reflexivity|].
  apply Nat.ltb_ge in E. lia.
Qed.

Lemma clean_story_content_short_witness :
  PyStr.len planned_note < 100 /\
  Webapp.clean_story_content planned_note = PyStr.strip planned_note.
Proof.
  assert (H : PyStr.len planned_note < 100) by (vm_compute; lia).
  split; [exact H|].
  exact (clean_story_content_short_input planned_note H).
Defined.

(* ================================================================== *)
(** ** A text of one line *)

Lemma one_line_suffix (s' s : string) :
  is_suffix s' s -> one_line s = true -> one_line s' = true.
Proof.
  intros [p ->]. unfold one_line.
  induction p as [|c p IH]; simpl; [trivial|].
  intros H. apply andb_true_iff in H. tauto.
Qed.

Lemma lit_newline_none (l : string) (st : mstate) :
  one_line (rest st) = true ->
  lit Webapp.sub_flags (String Webapp.nl l) st = None.
Proof.
  intros H. cbn [lit]. destruct (rest st) as [|c s']; [reflexivity|].
  unfold one_line in H. cbn [all_chars] in H.
  apply andb_true_iff in H. destruct H as [Hc _].
  apply negb_true_iff in Hc.
  unfold chr_eq. cbn [IGNORECASE Webapp.sub_flags].
  rewrite Ascii.eqb_sym, Hc. reflexivity.
Qed.

(** Without a newline ahead the tail of a planning pattern fails. *)
Lemma until_break_none (st : mstate) (k : mstate -> option mstate) :
  one_line (rest st) = true ->
  rmatch Webapp.sub_flags Webapp.until_break st k = None.
Proof.
  intros H. unfold Webapp.until_break. cbn [rmatch].
  apply star_none. intros n l g s' Hs.
  pose proof (one_line_suffix _ _ Hs H) as H'.
  assert (E1 : lit Webapp.sub_flags (Webapp.newline ++ Webapp.newline)
                   (MState n l s' g) = None)
    by (apply lit_newline_none; exact H').
  assert (E2 : lit Webapp.sub_flags Webapp.newline (MState n l s' g) = None)
    by (apply lit_newline_none; exact H').
  now rewrite E1, E2.
Qed.

Lemma planning_none (parts : list regex) (st : mstate)
      (k : mstate -> option mstate) :
  one_line (rest st) = true ->
  rmatch Webapp.sub_flags (Webapp.planning parts) st k = None.
Proof.
  intros H. unfold Webapp.planning. cbn [rmatch].
  destruct (at_bol Webapp.sub_flags st); [|reflexivity].
  apply rmatch_none. intros st' Hs.
  apply until_break_none. exact (one_line_suffix _ _ Hs H).
Qed.

Lemma sub_del_one_line (parts : list regex) (s : string) :
  forall l,
    one_line s = true ->
    sub_del Webapp.sub_flags (Webapp.planning parts) 0 l s = s.
Proof.
  induction s as [|c s IH]; intros l H; cbn [sub_del]; [reflexivity|].
  unfold match_nonempty.
  rewrite (planning_none parts (MState 0 l (String c s) None) _ H).
  rewrite IH; [reflexivity|].
  unfold one_line in *. cbn [all_chars] in H.
  apply andb_true_iff in H. tauto.
Qed.

Lemma planning_patterns_shape :
  Forall (fun r => exists parts, r = Webapp.planning parts)
         Webapp.planning_patterns.
Proof. repeat (constructor; [eexists; reflexivity|]). constructor. Qed.

Lemma fold_sub_one_line (patterns : list regex) (s : string) :
  Forall (fun r => exists parts, r = Webapp.planning parts) patterns ->
  one_line s = true ->
  fold_left (fun text pattern => sub_empty Webapp.sub_flags pattern text)
            patterns s = s.
Proof.
  induction 1 as [|r rs [parts ->] _ IH]; intros H; simpl; [reflexivity|].
  unfold sub_empty at 2. rewrite (sub_del_one_line parts s None H).
  now apply IH.
Qed.

Lemma split_one_line (s : string) :
  one_line s = true -> PyStr.split Webapp.nl s = [s].
Proof.
  unfold one_line. induction s as [|c s IH]; cbn [all_chars PyStr.split];
    [reflexivity|].
  intros H. apply andb_true_iff in H. destruct H as [Hc Hs].
  apply negb_true_iff in Hc. rewrite Hc, (IH Hs). reflexivity.
Qed.

(** X9. On a text without a newline no planning pattern can match (each
    needs a line break ahead) and there is no line to drop: whatever the
    text says, [clean_story_content] returns it stripped. *)
Theorem clean_story_content_one_line (story_text : string) :
  one_line story_text = true ->
  Webapp.clean_story_content story_text = PyStr.strip story_text.
Proof.
  intros H.
  assert (E : Webapp.cleaned_text story_text = PyStr.strip story_text).
  { unfold Webapp.cleaned_text.
    rewrite (fold_sub_one_line _ _ planning_patterns_shape H).
    rewrite (split_one_line _ H). cbn [Webapp.find_story_start].
    destruct (_ && _); reflexivity. }
  unfold Webapp.clean_story_content. rewrite E.
  now destruct (_ <? _).
Qed.

Lemma clean_story_content_one_line_witness :
  Webapp.clean_story_content
    "Okay, the user wants a story about cats. Let me draft it step by step, making sure the plot is vivid.  "
  = "Okay, the user wants a story about cats. Let me draft it step by step, making sure the plot is vivid.".
Proof.
  exact (clean_story_content_one_line
           "Okay, the user wants a story about cats. Let me draft it step by step, making sure the plot is vivid.  "
           eq_refl).
Defined.

(* ================================================================== *)
(** ** The generation prompt and the token budget *)

Import Generator.

Lemma dict_get_none {V : Type} (d : dict V) (k : string) :
  ~ In k (keys d) -> dict_get k d = None.
Proof.
  induction d as [|[k' v] t IH]; simpl; intros H; [reflexivity|].
  destruct (String.eqb k k') eqn:E.
  - apply String.eqb_eq in E. subst. exfalso. apply H. now left.
  - apply IH. intros H'. apply H. now right.
Qed.

Lemma lengths_subscript (key : string) :
  (In key length_set /\
   exists info, subscript (lengths StoryCraftGenerator_init) key = Returned info /\
                500 <= words info <= 5000)
  \/ (~ In key length_set /\
      subscript (lengths StoryCraftGenerator_init) key = KeyError key).
Proof.
  destruct (in_dec string_dec key length_set) as [Hin|Hout].
  - left. split; [exact Hin|]. simpl in Hin.
    destruct Hin as [<-|[<-|[<-|[<-|[]]]]]; eexists; split;
      try reflexivity; simpl; lia.
  - right. split; [exact Hout|]. unfold subscript.
    now rewrite (dict_get_none (lengths StoryCraftGenerator_init) key Hout).
Qed.

Lemma build_story_prompt_cases
      (user_prompt : string) (config : StoryConfig) :
  (In (length config) length_set /\
   exists prompt,
     _build_story_prompt StoryCraftGenerator_init user_prompt config
     = Returned prompt)
  \/ (~ In (length config) length_set /\
      _build_story_prompt StoryCraftGenerator_init user_prompt config
      = KeyError (length config)).
Proof.
  unfold _build_story_prompt.
  destruct (lengths_subscript (length config))
    as [[Hin (info & E & _)]|[Hout E]]; rewrite E.
  - left. split; [exact Hin|].
    destruct (truthy (length config)); cbn [and_then]; eauto.
  - right. split; [exact Hout|].
    destruct (truthy (length config)); reflexivity.
Qed.

(** X10. [_build_story_prompt] returns a prompt exactly when
    [config.length] is one of short, medium, long, epic; for every other
    length, the empty string included, it raises [KeyError] on that length,
    whatever the other fields hold. *)
Theorem build_story_prompt_needs_known_length
        (user_prompt : string) (config : StoryConfig) :
  (In (length config) length_set ->
   exists prompt,
     _build_story_prompt StoryCraftGenerator_init user_prompt config
     = Returned prompt) /\
  (~ In (length config) length_set ->
   _build_story_prompt StoryCraftGenerator_init user_prompt config
   = KeyError (length config)).
Proof.
  destruct (build_story_prompt_cases user_prompt config) as [[Hin H]|[Hout H]];
    split; intros H'; first [exact H | contradiction].
Qed.

Lemma build_story_prompt_empty_length_witness :
  _build_story_prompt StoryCraftGenerator_init "a story"
    (mkStoryConfig "general" "narrative" "" "neutral" "" "" "" "a story")
  = KeyError "".
Proof.
  apply (proj2 (build_story_prompt_needs_known_length "a story"
                  (mkStoryConfig "general" "narrative" "" "neutral" "" "" ""
                                 "a story"))).
  simpl. intuition discriminate.
Defined.

Section Requests.
Variable api : string -> nat -> request_outcome.

(** X11. On the record [analyze_prompt] returns for a prompt,
    [generate_story] raises no [KeyError] of its own: it builds the
    generation prompt and makes one request, for at least 1000 and at most
    4000 tokens, and ends as that request ends, with its answer or with the
    exception that leaves it. *)
Theorem generate_story_after_analysis (prompt : string) :
  exists c text max_tokens,
    analyze_prompt PromptAnalyzer_init prompt = Ok c /\
    _build_story_prompt StoryCraftGenerator_init prompt c = Returned text /\
    generate_story api StoryCraftGenerator_init prompt c
    = Returned (api text max_tokens) /\
    1000 <= max_tokens <= 4000.
Proof.
  destruct (analyze_prompt_returns prompt) as (p & s & _ & _ & H).
  exists (built prompt p s).
  pose proof (built_length prompt p s) as Hl.
  destruct (build_story_prompt_cases prompt (built prompt p s))
    as [[_ [text Ht]]|[Hout _]]; [|contradiction].
  destruct (lengths_subscript (length (built prompt p s)))
    as [[_ (info & E & Hw)]|[Hout _]]; [|contradiction].
  exists text, (Nat.min (words info * 2) 4000).
  split; [exact H|]. split; [exact Ht|]. split.
  - unfold generate_story. rewrite Ht. cbn [and_then]. rewrite E. reflexivity.
  - lia.
Qed.

End Requests.

(* ================================================================== *)
(** ** The clarifying questions *)

Lemma truthy_false (s : string) : truthy s = false -> s = "".
Proof.
  unfold truthy. intros H. apply negb_false_iff in H.
  now apply String.eqb_eq.
Qed.

Lemma truthy_true (s : string) : truthy s = true -> s <> "".
Proof.
  unfold truthy. intros H. apply negb_true_iff in H.
  now apply String.eqb_neq.
Qed.

Ltac split_ifs H :=
  repeat match type of H with
         | context [if ?b then _ else _] =>
             let E := fresh "E" in destruct b eqn:E
         end.

(** X12. [ask_clarifying_questions] touches length, protagonist and
    setting only: genre, style, tone, theme and the original prompt of the
    record it returns are those of the record it was given. *)
Theorem ask_clarifying_questions_frame
        (user : answers) (config config' : StoryConfig) :
  ask_clarifying_questions StoryCraftGenerator_init user config
  = Returned config' ->
  genre config' = genre config /\ style config' = style config /\
  tone config' = tone config /\ theme config' = theme config /\
  original_prompt config' = original_prompt config.
Proof.
  unfold ask_clarifying_questions. intros H.
  destruct (_ && negb _).
  - destruct (subscript length_map (length_choice user)) as [l|];
      cbn [and_then] in H; [|discriminate].
    split_ifs H; injection H as <-; repeat split.
  - cbn [and_then] in H.
    split_ifs H; injection H as <-; repeat split.
Qed.

Lemma ask_clarifying_questions_frame_witness :
  let config := mkStoryConfig "general" "narrative" "medium" "neutral"
                              "" "" "" "a tale" in
  let config' := mkStoryConfig "general" "narrative" "short" "neutral"
                               "Ann" "Mars" "" "a tale" in
  ask_clarifying_questions StoryCraftGenerator_init
    (mkAnswers "1" true "Ann" "Mars") config = Returned config' /\
  genre config' = genre config /\ style config' = style config /\
  tone config' = tone config /\ theme config' = theme config /\
  original_prompt config' = original_prompt config.
Proof.
  intros config config'.
  assert (H : ask_clarifying_questions StoryCraftGenerator_init
                (mkAnswers "1" true "Ann" "Mars") config = Returned config')
    by (vm_compute; reflexivity).
  split; [exact H|].
  exact (ask_clarifying_questions_frame _ _ _ H).
Defined.

(** X13. [ask_clarifying_questions] never overwrites or erases what the
    analysis found: the protagonist it returns is the one it was given,
    unless protagonist and setting were both empty, the genre was "general",
    the user agreed to add details and typed a protagonist that is not empty;
    and the same for the setting. *)
Theorem ask_clarifying_questions_keeps_details
        (user : answers) (config config' : StoryConfig) :
  ask_clarifying_questions StoryCraftGenerator_init user config
  = Returned config' ->
  let asked :=
    protagonist config = "" /\ setting config = "" /\
    genre config = "general" /\ add_details user = true in
  (protagonist config' = protagonist config
   \/ (asked /\ protagonist_answer user <> "" /\
       protagonist config' = protagonist_answer user))
  /\ (setting config' = setting config
      \/ (asked /\ setting_answer user <> "" /\
          setting config' = setting_answer user)).
Proof.
  unfold ask_clarifying_questions. intros H. cbv zeta.
  assert (K : forall c : StoryConfig,
             (if negb (truthy (protagonist c)) && negb (truthy (setting c))
                 && String.eqb (genre c) "general"
              then
                if add_details user
                then
                  let c1 :=
                    if negb (truthy (protagonist c))
                    then if truthy (protagonist_answer user)
                         then set_protagonist (protagonist_answer user) c
                         else c
                    else c in
                  let c2 :=
                    if negb (truthy (setting c1))
                    then if truthy (setting_answer user)
                         then set_setting (setting_answer user) c1
                         else c1
                    else c1 in
                  c2
                else c
              else c) = config' ->
             (protagonist config' = protagonist c
              \/ ((protagonist c = "" /\ setting c = "" /\
                   genre c = "general" /\ add_details user = true) /\
                  protagonist_answer user <> "" /\
                  protagonist config' = protagonist_answer user))
             /\ (setting config' = setting c
                 \/ ((protagonist c = "" /\ setting c = "" /\
                      genre c = "general" /\ add_details user = true) /\
                     setting_answer user <> "" /\
                     setting config' = setting_answer user))).
  { intros c Hc.
    destruct (truthy (protagonist c)) eqn:Ep;
      [cbn in Hc; subst config'; split; now left|].
    destruct (truthy (setting c)) eqn:Es;
      [cbn in Hc; subst config'; split; now left|].
    destruct (String.eqb (genre c) "general") eqn:Eg;
      [|cbn in Hc; subst config'; split; now left].
    destruct (add_details user) eqn:Ea;
      [|cbn in Hc; subst config'; split; now left].
    apply truthy_false in Ep, Es. apply String.eqb_eq in Eg.
    cbn [negb andb] in Hc.
    destruct (truthy (protagonist_answer user)) eqn:Epa;
      destruct (truthy (setting_answer user)) eqn:Esa;
      cbn [set_protagonist set_setting setting protagonist] in Hc;
      rewrite ?Es in Hc; cbn [truthy String.eqb negb] in Hc;
      rewrite ?Esa in Hc; subst config';
      cbn [set_protagonist set_setting setting protagonist];
      try apply truthy_true in Epa; try apply truthy_true in Esa;
      split; first [now left | right; repeat split; assumption]. }
  destruct (_ && negb _).
  - destruct (subscript length_map (length_choice user)) as [l|];
      cbn [and_then] in H; [|discriminate].
    injection H as H. exact (K (set_length l config) H).
  - cbn [and_then] in H. injection H as H. exact (K config H).
Qed.

Lemma ask_clarifying_questions_keeps_details_witness :
  let config := mkStoryConfig "fantasy" "narrative" "short" "neutral"
                              "" "" "" "a short tale of a wizard" in
  let user := mkAnswers "4" true "Ann" "Mars" in
  ask_clarifying_questions StoryCraftGenerator_init user config
  = Returned config /\
  (protagonist config = protagonist config
   \/ ((protagonist config = "" /\ setting config = "" /\
        genre config = "general" /\ add_details user = true) /\
       protagonist_answer user <> "" /\
       protagonist config = protagonist_answer user))
  /\ (setting config = setting config
      \/ ((protagonist config = "" /\ setting config = "" /\
           genre config = "general" /\ add_details user = true) /\
          setting_answer user <> "" /\
          setting config = setting_answer user)).
Proof.
  intros config user.
  assert (H : ask_clarifying_questions StoryCraftGenerator_init user config
              = Returned config)
    by (vm_compute; reflexivity).
  split; [exact H|].
  exact (ask_clarifying_questions_keeps_details _ _ _ H).
Defined.

Lemma any_length_keyword_first_label
      (table : dict (list string)) (prompt_lower : string) :
  any_length_keyword table prompt_lower
  = match first_label table prompt_lower with
    | Some _ => true
    | None => false
    end.
Proof.
  unfold any_length_keyword.
  induction table as [|[label kws] t IH]; simpl; [reflexivity|].
  destruct (any_keyword kws prompt_lower); [reflexivity|exact IH].
Qed.

(** X14. After [analyze_prompt], with a choice [Prompt.ask] can return
    ("1", "2", "3" or "4"), [ask_clarifying_questions] returns, and the
    length question is asked exactly when no length keyword occurs in the
    lower-cased prompt.  If one occurs, the length of the analysis is kept;
    if none does, the length was the default "medium" and becomes the length
    the choice stands for ("1" short, "2" medium, "3" long, "4" epic).  The
    returned length is always one of the four. *)
Theorem ask_clarifying_questions_after_analysis
        (prompt : string) (user : answers) :
  In (length_choice user) ["1"; "2"; "3"; "4"] ->
  exists c c',
    analyze_prompt PromptAnalyzer_init prompt = Ok c /\
    ask_clarifying_questions StoryCraftGenerator_init user c = Returned c' /\
    In (length c') length_set /\
    (any_length_keyword (length_keywords PromptAnalyzer_init)
                        (PyStr.lower prompt) = true ->
     length c' = length c) /\
    (any_length_keyword (length_keywords PromptAnalyzer_init)
                        (PyStr.lower prompt) = false ->
     length c = "medium" /\
     dict_get (length_choice user) length_map = Some (length c')).
Proof.
  intros Hchoice.
  destruct (analyze_prompt_returns prompt) as (p & s & _ & _ & H).
  exists (built prompt p s).
  pose proof (built_frame prompt p s) as (_ & _ & Hop).
  pose proof (built_length prompt p s) as Hin.
  pose proof (built_length_eq prompt p s) as Hl.
  unfold ask_clarifying_questions.
  cbn [analyzer StoryCraftGenerator_init]. rewrite Hop.
  destruct (any_length_keyword _ _) eqn:Ea.
  - rewrite andb_false_r. cbn [and_then].
    eexists. split; [exact H|]. split; [reflexivity|].
    split; [|split; [intros _|discriminate]];
      repeat match goal with
             | |- context [if ?b then _ else _] => destruct b
             end; first [exact Hin | reflexivity].
  - rewrite any_length_keyword_first_label in Ea.
    destruct (first_label _ _); [discriminate|].
    rewrite Hl. cbn [String.eqb Ascii.eqb Bool.eqb andb negb].
    assert (Hl' : exists l, dict_get (length_choice user) length_map = Some l
                            /\ In l length_set).
    { simpl in Hchoice.
      destruct Hchoice as [<-|[<-|[<-|[<-|[]]]]]; eexists; split;
        try reflexivity; simpl; tauto. }
    destruct Hl' as (l & El & Hlin).
    unfold subscript. rewrite El. cbn [and_then].
    eexists. split; [exact H|]. split; [reflexivity|].
    split; [|split; [discriminate|intros _; split; [reflexivity|]]];
      repeat match goal with
             | |- context [if ?b then _ else _] => destruct b
             end; first [exact Hlin | reflexivity].
Qed.

Lemma ask_clarifying_questions_after_analysis_witness :
  let user := mkAnswers "3" false "" "" in
  exists c c',
    analyze_prompt PromptAnalyzer_init "a tale of two cities" = Ok c /\
    ask_clarifying_questions StoryCraftGenerator_init user c = Returned c' /\
    In (length c') length_set /\
    (any_length_keyword (length_keywords PromptAnalyzer_init)
                        (PyStr.lower "a tale of two cities") = true ->
     length c' = length c) /\
    (any_length_keyword (length_keywords PromptAnalyzer_init)
                        (PyStr.lower "a tale of two cities") = false ->
     length c = "medium" /\
     dict_get (length_choice user) length_map = Some (length c')).
Proof.
  intros user.
  apply (ask_clarifying_questions_after_analysis "a tale of two cities" user).
  simpl. tauto.
Defined.

(* ================================================================== *)
(** ** The file name of a saved story *)

Lemma all_chars_app (p : ascii -> bool) (a b : string) :
  all_chars p (a ++ b) = all_chars p a && all_chars p b.
Proof.
  induction a as [|c a IH]; simpl; [reflexivity|].
  now rewrite IH, andb_assoc.
Qed.

Lemma all_chars_subseq (p : ascii -> bool) (a b : string) :
  subseq a b -> all_chars p b = true -> all_chars p a = true.
Proof.
  induction 1 as [|c a b _ IH|c a b _ IH]; simpl; intros H; trivial;
    apply andb_true_iff in H; destruct H as [Hc Hb].
  - now rewrite Hc, IH.
  - now apply IH.
Qed.

Lemma sub_class_deletes (cls : ascii -> bool) (s : string) :
  all_chars (fun c => negb (cls c)) (sub_class cls "" s) = true /\
  String.length (sub_class cls "" s) <= String.length s.
Proof.
  induction s as [|c s [IH1 IH2]]; simpl; [split; [reflexivity|lia]|].
  destruct (cls c) eqn:E; simpl.
  - split; [exact IH1|lia].
  - rewrite E, IH1. split; [reflexivity|lia].
Qed.

Lemma sub_runs_underscore (s : string) :
  forall in_run,
    all_chars (fun c => negb (unsafe_char c)) s = true ->
    all_chars is_word (sub_runs separator_char "_" in_run s) = true /\
    String.length (sub_runs separator_char "_" in_run s) <= String.length s.
Proof.
  induction s as [|c s IH]; intros in_run H; simpl; [split; [reflexivity|lia]|].
  simpl in H. apply andb_true_iff in H. destruct H as [Hc Hs].
  destruct (separator_char c) eqn:E.
  - destruct in_run.
    + destruct (IH true Hs). split; [assumption|lia].
    + destruct (IH true Hs) as [H1 H2]. simpl. split; [exact H1|lia].
  - destruct (IH false Hs) as [H1 H2]. simpl. rewrite H1.
    split; [|lia]. rewrite andb_true_r.
    unfold unsafe_char in Hc. rewrite negb_involutive in Hc.
    unfold separator_char in E.
    apply orb_false_iff in E. destruct E as [E1 E2].
    rewrite E1, E2, !orb_false_r in Hc. exact Hc.
Qed.

Lemma substring_length (s : string) :
  forall m, String.length (substring 0 m s) <= m.
Proof.
  induction s as [|c s IH]; intros [|m]; simpl; try lia.
  specialize (IH m). lia.
Qed.

Lemma safe_prompt_word (original_prompt : string) :
  all_chars is_word (safe_prompt original_prompt) = true /\
  PyStr.len (safe_prompt original_prompt) <= 30.
Proof.
  unfold safe_prompt.
  set (cut := substring 0 30 original_prompt).
  destruct (sub_class_deletes unsafe_char cut) as [D1 D2].
  set (kept := sub_class unsafe_char "" cut) in *.
  pose proof (substring_of_subseq _ _ (strip_substring_of kept)) as Hs.
  pose proof (all_chars_subseq _ _ _ Hs D1) as S1.
  pose proof (subseq_length _ _ Hs) as S2.
  destruct (sub_runs_underscore (PyStr.strip kept) false S1) as [R1 R2].
  pose proof (substring_length original_prompt 30) as C. fold cut in C.
  split; [exact R1|unfold PyStr.len; lia].
Qed.

(** X15. The part of the file name [save_story] makes from the prompt is
    built of word characters only (letters, digits and the underscore) and
    is at most 30 characters long: it holds no path separator, no dot, no
    blank and no hyphen, whatever the prompt. *)
Theorem safe_prompt_is_safe (original_prompt : string) :
  all_chars is_word (safe_prompt original_prompt) = true /\
  PyStr.len (safe_prompt original_prompt) <= 30 /\
  all_chars (fun c => negb (Ascii.eqb c "/" || Ascii.eqb c "\"
                            || Ascii.eqb c "." || Ascii.eqb c "-"
                            || PyStr.is_space c))
            (safe_prompt original_prompt) = true.
Proof.
  destruct (safe_prompt_word original_prompt) as [R1 R2].
  split; [exact R1|]. split; [exact R2|].
  revert R1. generalize (safe_prompt original_prompt).
  intros s. induction s as [|c s IH]; simpl; [reflexivity|].
  intros H. apply andb_true_iff in H. destruct H as [Hc Hr].
  rewrite (IH Hr), andb_true_r.
  revert Hc. clear. destruct c as [[] [] [] [] [] [] [] []]; vm_compute;
    intros H; first [reflexivity | discriminate H].
Qed.

(** X16. With a timestamp of word characters, as the clock format
    [%Y%m%d_%H%M%S] gives, the file name of [save_story] is a stem of word
    characters followed by ".md": it has no path separator and no dot but
    the one of its extension. *)
Theorem story_filename_shape (timestamp : string) (config : StoryConfig) :
  all_chars is_word timestamp = true ->
  exists stem,
    story_filename timestamp config = stem ++ ".md" /\
    all_chars is_word stem = true.
Proof.
  intros Ht. unfold story_filename.
  exists ("story_" ++ safe_prompt (original_prompt config) ++ "_" ++ timestamp).
  split.
  - now rewrite !str_app_assoc.
  - rewrite !all_chars_app, Ht.
    now rewrite (proj1 (safe_prompt_word (original_prompt config))).
Qed.

Lemma story_filename_witness :
  let config :=
    mkStoryConfig "general" "narrative" "medium" "neutral" "" "" ""
                  "../etc: a [dark] tale - part 2, the return of the king" in
  story_filename "20240131_093000" config
  = "story_etc_a_dark_tale_part_2_20240131_093000.md" /\
  exists stem,
    story_filename "20240131_093000" config = stem ++ ".md" /\
    all_chars is_word stem = true.
Proof.
  intros config. split; [vm_compute; reflexivity|].
  exact (story_filename_shape "20240131_093000" config eq_refl).
Defined.

(* ================================================================== *)
(** ** What [save_story] writes *)



Section Saved.
Variable title : string -> string.
Variable timestamp generated : string.



End Saved.

(* ================================================================== *)
(** ** The answers of the [/generate] route *)

Import Routes.

Section Answers.
Variable api : string -> nat -> request_outcome.
Variable title : string -> string.
Variable timestamp generated : string.

(** The record the handler hands to [generate_story]: the analysis with
    the form's overrides. *)
Lemma overridden_length (form_length form_genre : option string)
      (config : StoryConfig) :
  let c1 := match form_length with
            | Some l => if truthy l then set_length l config else config
            | None => config
            end in
  let c2 := match form_genre with
            | Some g => if truthy g then set_genre g c1 else c1
            | None => c1
            end in
  let c3 := if negb (truthy (length c2)) then set_length "medium" c2 else c2 in
  In (length config) length_set ->
  length c3 = match form_length with
              | Some l => if truthy l then l else length config
              | None => length config
              end.
Proof.
  intros c1 c2 c3 Hin. subst c1 c2 c3.
  assert (Hne : truthy (length config) = true).
  { simpl in Hin. destruct Hin as [<-|[<-|[<-|[<-|[]]]]]; reflexivity. }
  destruct form_length as [l|], form_genre as [g|];
    try destruct (truthy l) eqn:El; try destruct (truthy g) eqn:Eg;
    cbn [length set_length set_genre];
    rewrite ?El, ?Hne; reflexivity.
Qed.



(** X19. The form's [length] goes into the record unchecked: with a prompt
    that is not empty and a [length] field that is not empty and none of
    short, medium, long, epic, the handler of [/generate] ends in a
    [KeyError] on that length, before any request for a story is made. *)
Theorem generate_unknown_length (req : request) (user_prompt l : string) :
  dict_get "prompt" (form req) = Some user_prompt ->
  user_prompt <> "" ->
  dict_get "length" (form req) = Some l ->
  l <> "" ->
  ~ In l length_set ->
  generate api title timestamp generated req = UnhandledKeyError l.
Proof.
  intros Hp Hu Hl Hne Hout. unfold generate. rewrite Hp, Hl. cbv beta iota.
  set (u := match dict_get "story_file" (files req) with
            | Some file => _
            | None => user_prompt
            end).
  assert (Hu' : truthy u = true).
  { assert (T : truthy user_prompt = true).
    { unfold truthy. apply negb_true_iff. now apply String.eqb_neq. }
    subst u. destruct (dict_get "story_file" (files req)) as [file|];
      [|exact T].
    destruct (_ && _); [|exact T].
    destruct (decoded file) as [content|]; [|exact T].
    destruct (truthy (PyStr.strip content)) eqn:E; [exact E|exact T]. }
  rewrite Hu'. cbn [negb].
  destruct (analyze_prompt_returns u) as (p & s & _ & _ & H). rewrite H.
  assert (Tl : truthy l = true).
  { unfold truthy. apply negb_true_iff. now apply String.eqb_neq. }
  rewrite Tl.
  pose proof (overridden_length (Some l) (dict_get "genre" (form req))
                                (built u p s) (built_length u p s)) as Hlen.
  cbv beta iota zeta in Hlen. rewrite Tl in Hlen.
  set (config := if negb (truthy (length _)) then _ else _) in *.
  unfold generate_story.
  destruct (build_story_prompt_cases u config)
    as [[Hin _]|[_ Hk]]; [rewrite Hlen in Hin; contradiction|].
  rewrite Hk. cbn [and_then]. now rewrite Hlen.
Qed.

End Answers.

Lemma generate_unknown_length_witness :
  generate (fun _ _ => Answered (Some "Once upon a time.")) (fun g => g)
           "20240131_093000" "2024-01-31 at 09:30"
           (mkRequest [("prompt", "a tale of a wizard"); ("length", "tiny")] [])
  = UnhandledKeyError "tiny".
Proof.
  apply (generate_unknown_length _ _ _ _ _ "a tale of a wizard" "tiny");
    try reflexivity; try discriminate.
  simpl. intuition discriminate.
Defined.

